(** * Migration of the legacy pipeline history (package bootstrap)

    A shallow embedding of [MigratePipelineHistory] and [getPipelineBuild]
    (engine/api/pipeline_parameter.go, the part in package bootstrap) and
    the properties of the migration that hold, or fail, on that code.

    Conventions of the embedding.
    - A Go [int64] is a [Z]; a [string] is a [string]; a slice is a [list]
      (the nil slice and the empty slice are both [[]]).
    - A pointer that may be nil is an [option]; dereferencing [None] is a
      run-time panic, as is a failed type assertion [x.(T)].
    - The two stores, the log and the wall clock are explicit state
      ([world]); a database transaction is a value of its own ([Tx]).
    - Failures of the database that do not depend on the stored data
      (a lost connection, a commit that fails) are read from [Env].
    - The columns have the types the code scans them into: [rows.Scan]
      succeeds, and its error branches are left out. *)

From Stdlib Require Import ZArith List Ascii String Bool Lia.
From Stdlib Require Import Sorting.Sorted Sorting.Permutation.
Import ListNotations.

Set Warnings "-register-all".
Local Open Scope string_scope.
Local Open Scope Z_scope.

(* ===================================================================== *)
(** ** JSON documents and the values Go decodes them to *)
(* ===================================================================== *)

(** A JSON document. An object lists one entry per key. Numbers are the
    integer literals of the legacy payloads (ids, versions, counters). *)
Inductive json : Type :=
| JNull
| JBool (b : bool)
| JNumber (n : Z)
| JString (s : string)
| JArray (l : list json)
| JObject (m : list (string * json)).

(** The text in column [data]: either it is not JSON at all, or it is the
    text of a document. *)
Inductive payload : Type :=
| NotJSON (text : string)
| Document (j : json).

(** [m[k]] on a [map[string]interface{}], with the comma-ok flag: [None]
    when the key is absent. *)
Fixpoint lookup (k : string) (m : list (string * json)) : option json :=
  match m with
  | [] => None
  | (k', v) :: rest => if String.eqb k k' then Some v else lookup k rest
  end.

Fixpoint remove_key (k : string) (m : list (string * json)) : list (string * json) :=
  match m with
  | [] => []
  | (k', v) :: rest =>
      if String.eqb k k' then remove_key k rest else (k', v) :: remove_key k rest
  end.

(** [encoding/json] stores every number of an [interface{}] as a float64:
    an integer of more than 53 significant bits is rounded, to nearest and
    ties to even. *)
Definition float64_of_Z (n : Z) : Z :=
  let a := Z.abs n in
  if a <? 2 ^ 53 then n
  else
    let k := Z.log2 a - 52 in
    let q := Z.shiftr a k in
    let r := a - Z.shiftl q k in
    let half := Z.shiftl 1 (k - 1) in
    let q' := if (half <? r) || ((r =? half) && Z.odd q) then q + 1 else q in
    Z.sgn n * Z.shiftl q' k.

Definition min_int64 : Z := - 2 ^ 63.
Definition max_int64 : Z := 2 ^ 63 - 1.

Definition in_int64 (n : Z) : bool := (min_int64 <=? n) && (n <=? max_int64).

(** The conversion [int64(f)] of an integral float64; out of range the
    result is the one of amd64 (the smallest int64). *)
Definition int64_of_float64 (f : Z) : Z :=
  if in_int64 f then f else min_int64.

(* ===================================================================== *)
(** ** Outcomes: normal completion or a Go panic *)
(* ===================================================================== *)

Inductive outcome (A : Type) : Type :=
| Normal (a : A)
| Panic (reason : string).
Arguments Normal {A} a.
Arguments Panic {A} reason.

(** The type assertions of [getPipelineBuild]. The operand is the result
    of a map index: an absent key and a JSON null are both the nil
    interface, on which every assertion panics. *)
Definition assert_float64 (v : option json) : outcome Z :=
  match v with
  | Some (JNumber n) => Normal (float64_of_Z n)
  | _ => Panic "interface conversion: interface {} is not float64"
  end.

Definition assert_string (v : option json) : outcome string :=
  match v with
  | Some (JString s) => Normal s
  | _ => Panic "interface conversion: interface {} is not string"
  end.

Definition assert_slice (v : option json) : outcome (list json) :=
  match v with
  | Some (JArray l) => Normal l
  | _ => Panic "interface conversion: interface {} is not []interface {}"
  end.

Definition assert_map (v : json) : outcome (list (string * json)) :=
  match v with
  | JObject m => Normal m
  | _ => Panic "interface conversion: interface {} is not map[string]interface {}"
  end.

(** [x != nil] on the result of a map index. *)
Definition is_nil (v : option json) : bool :=
  match v with
  | None | Some JNull => true
  | _ => false
  end.

(* ===================================================================== *)
(** ** Errors *)
(* ===================================================================== *)

Inductive error : Type :=
| ErrNoRows                       (* sql.ErrNoRows *)
| ErrLockNotAvailable             (* FOR UPDATE NOWAIT on a locked row *)
| ErrQuery                        (* a query the store could not run *)
| ErrBegin
| ErrCommit
| ErrInsert                       (* the INSERT was refused *)
| SyntaxError                     (* json: the text is not JSON *)
| UnmarshalTypeError (field : string).  (* json: wrong kind of value *)

(* ===================================================================== *)
(** ** The typed build (package sdk) *)
(* ===================================================================== *)

Definition Time := Z.

(** Modelled from the spec: [sdk.Status], whose declaration is in package
    sdk, not among the sources: a string type, whose [String] method gives
    the string back; the fail sentinel is ["Fail"]. *)
Definition Status := string.
Definition StatusSuccess : Status := "Success".
Definition StatusFail : Status := "Fail".
Definition Status_String (s : Status) : string := s.

(** Modelled from the spec: the structs [sdk.Parameter], [sdk.Action],
    [sdk.Job], [sdk.PipelineBuildJob], [sdk.Stage] and [sdk.PipelineBuild],
    declared in package sdk, not among the sources. The fields are the ones
    [getPipelineBuild] and [MigratePipelineHistory] read or write, with the
    data model of the specification for the rest. *)
Record sdkParameter : Type := {
  Parameter_Name : string;
  Parameter_Type : string;
  Parameter_Value : string
}.

Record Action : Type := { Action_Name : string }.

Record Job : Type := {
  Job_Action : Action;
  Job_Enabled : bool;
  Job_PipelineActionID : Z
}.

Record PipelineBuildJob : Type := {
  PipelineBuildJob_ID : Z;
  PipelineBuildJob_Parameters : list sdkParameter;
  PipelineBuildJob_PipelineBuildID : Z;
  PipelineBuildJob_Model : string;
  PipelineBuildJob_Status : string;
  PipelineBuildJob_Job : Job;
  PipelineBuildJob_Start : Time;
  PipelineBuildJob_Done : Time
}.

Record Stage : Type := {
  Stage_ID : Z;
  Stage_Name : string;
  Stage_Status : Status;
  Stage_Jobs : list Job;
  Stage_PipelineBuildJobs : list PipelineBuildJob
}.

Record PipelineBuild : Type := {
  PipelineBuild_ID : Z;
  PipelineBuild_PipelineID : Z;            (* pb.Pipeline.ID *)
  PipelineBuild_ApplicationID : Z;         (* pb.Application.ID *)
  PipelineBuild_EnvironmentID : Z;         (* pb.Environment.ID *)
  PipelineBuild_BuildNumber : Z;
  PipelineBuild_Version : Z;
  PipelineBuild_Status : Status;
  PipelineBuild_Parameters : list sdkParameter;
  PipelineBuild_TriggeredBy : option Z;    (* pb.Trigger.TriggeredBy, its ID *)
  PipelineBuild_PreviousPipelineBuild : option Z;  (* its ID *)
  PipelineBuild_Stages : list Stage
}.

Definition set_Stages (pb : PipelineBuild) (stages : list Stage) : PipelineBuild :=
  {| PipelineBuild_ID := PipelineBuild_ID pb;
     PipelineBuild_PipelineID := PipelineBuild_PipelineID pb;
     PipelineBuild_ApplicationID := PipelineBuild_ApplicationID pb;
     PipelineBuild_EnvironmentID := PipelineBuild_EnvironmentID pb;
     PipelineBuild_BuildNumber := PipelineBuild_BuildNumber pb;
     PipelineBuild_Version := PipelineBuild_Version pb;
     PipelineBuild_Status := PipelineBuild_Status pb;
     PipelineBuild_Parameters := PipelineBuild_Parameters pb;
     PipelineBuild_TriggeredBy := PipelineBuild_TriggeredBy pb;
     PipelineBuild_PreviousPipelineBuild := PipelineBuild_PreviousPipelineBuild pb;
     PipelineBuild_Stages := stages |}.

(* ===================================================================== *)
(** ** json.Unmarshal into the typed build *)
(* ===================================================================== *)

(** The rules of [encoding/json] for a struct: a key that is absent, or
    whose value is null, leaves the field at its zero value; a value of
    another JSON kind than the field's is an [UnmarshalTypeError]; no field
    can be declared mandatory. *)
Module Unmarshal.

Definition int64_field (k : string) (m : list (string * json)) : error + Z :=
  match lookup k m with
  | None | Some JNull => inr 0
  | Some (JNumber n) => if in_int64 n then inr n else inl (UnmarshalTypeError k)
  | Some _ => inl (UnmarshalTypeError k)
  end.

Definition string_field (k : string) (m : list (string * json)) : error + string :=
  match lookup k m with
  | None | Some JNull => inr ""
  | Some (JString s) => inr s
  | Some _ => inl (UnmarshalTypeError k)
  end.

(** A field that is a struct of which only [ID] is read. *)
Definition ref_field (k : string) (m : list (string * json)) : error + Z :=
  match lookup k m with
  | None | Some JNull => inr 0
  | Some (JObject o) => int64_field "id" o
  | Some _ => inl (UnmarshalTypeError k)
  end.

(** A field that is a pointer to such a struct. *)
Definition ptr_field (k : string) (m : list (string * json)) : error + option Z :=
  match lookup k m with
  | None | Some JNull => inr None
  | Some (JObject o) =>
      match int64_field "id" o with
      | inr n => inr (Some n)
      | inl e => inl e
      end
  | Some _ => inl (UnmarshalTypeError k)
  end.

Fixpoint slice {A : Type} (elem : json -> error + A) (l : list json) : error + list A :=
  match l with
  | [] => inr []
  | j :: rest =>
      match elem j with
      | inl e => inl e
      | inr a =>
          match slice elem rest with
          | inl e => inl e
          | inr l' => inr (a :: l')
          end
      end
  end.

Definition slice_field {A : Type} (elem : json -> error + A) (k : string)
    (m : list (string * json)) : error + list A :=
  match lookup k m with
  | None | Some JNull => inr []
  | Some (JArray l) => slice elem l
  | Some _ => inl (UnmarshalTypeError k)
  end.

Definition parameter (j : json) : error + sdkParameter :=
  match j with
  | JNull => inr {| Parameter_Name := ""; Parameter_Type := ""; Parameter_Value := "" |}
  | JObject o =>
      match string_field "name" o, string_field "type" o, string_field "value" o with
      | inr n, inr t, inr v =>
          inr {| Parameter_Name := n; Parameter_Type := t; Parameter_Value := v |}
      | inl e, _, _ | _, inl e, _ | _, _, inl e => inl e
      end
  | _ => inl (UnmarshalTypeError "Parameter")
  end.

(** [json.Unmarshal(parameterJSON, &parameters)], on the value that was
    just marshalled from the dynamic tree. *)
Definition parameters (v : option json) : error + list sdkParameter :=
  match v with
  | None | Some JNull => inr []
  | Some (JArray l) => slice parameter l
  | Some _ => inl (UnmarshalTypeError "[]Parameter")
  end.

(** The skeleton of a stage: identity and name; its job lists are filled
    from the dynamic tree. *)
Definition zero_stage : Stage :=
  {| Stage_ID := 0; Stage_Name := ""; Stage_Status := "";
     Stage_Jobs := []; Stage_PipelineBuildJobs := [] |}.

Definition stage (j : json) : error + Stage :=
  match j with
  | JNull => inr zero_stage
  | JObject o =>
      match int64_field "id" o, string_field "name" o with
      | inr i, inr n =>
          inr {| Stage_ID := i; Stage_Name := n; Stage_Status := "";
                 Stage_Jobs := []; Stage_PipelineBuildJobs := [] |}
      | inl e, _ | _, inl e => inl e
      end
  | _ => inl (UnmarshalTypeError "Stage")
  end.

Definition zero_build : PipelineBuild :=
  {| PipelineBuild_ID := 0; PipelineBuild_PipelineID := 0;
     PipelineBuild_ApplicationID := 0; PipelineBuild_EnvironmentID := 0;
     PipelineBuild_BuildNumber := 0; PipelineBuild_Version := 0;
     PipelineBuild_Status := ""; PipelineBuild_Parameters := [];
     PipelineBuild_TriggeredBy := None;
     PipelineBuild_PreviousPipelineBuild := None;
     PipelineBuild_Stages := [] |}.

(** The field [Trigger], a struct of which [TriggeredBy], a pointer, is
    read. *)
Definition trigger_field (o : list (string * json)) : error + option Z :=
  match lookup "trigger" o with
  | None | Some JNull => inr None
  | Some (JObject t) => ptr_field "triggered_by" t
  | Some _ => inl (UnmarshalTypeError "trigger")
  end.

Definition build_fields (o : list (string * json)) : error + PipelineBuild :=
  match int64_field "id" o, ref_field "pipeline" o, ref_field "application" o,
        ref_field "environment" o, int64_field "build_number" o,
        int64_field "version" o, string_field "status" o,
        slice_field parameter "parameters" o, trigger_field o,
        ptr_field "previous_pipeline_build" o,
        slice_field stage "stages" o with
  | inr i, inr p, inr a, inr e, inr bn, inr v, inr st, inr ps, inr tb, inr prev, inr sts =>
      inr {| PipelineBuild_ID := i; PipelineBuild_PipelineID := p;
             PipelineBuild_ApplicationID := a; PipelineBuild_EnvironmentID := e;
             PipelineBuild_BuildNumber := bn; PipelineBuild_Version := v;
             PipelineBuild_Status := st; PipelineBuild_Parameters := ps;
             PipelineBuild_TriggeredBy := tb;
             PipelineBuild_PreviousPipelineBuild := prev;
             PipelineBuild_Stages := sts |}
  | inl e, _, _, _, _, _, _, _, _, _, _
  | _, inl e, _, _, _, _, _, _, _, _, _
  | _, _, inl e, _, _, _, _, _, _, _, _
  | _, _, _, inl e, _, _, _, _, _, _, _
  | _, _, _, _, inl e, _, _, _, _, _, _
  | _, _, _, _, _, inl e, _, _, _, _, _
  | _, _, _, _, _, _, inl e, _, _, _, _
  | _, _, _, _, _, _, _, inl e, _, _, _
  | _, _, _, _, _, _, _, _, inl e, _, _
  | _, _, _, _, _, _, _, _, _, inl e, _
  | _, _, _, _, _, _, _, _, _, _, inl e => inl e
  end.

(** [json.Unmarshal([]byte(data), &pb)] with [pb] a zero
    [sdk.PipelineBuild]. *)
Definition build (data : payload) : error + PipelineBuild :=
  match data with
  | NotJSON _ => inl SyntaxError
  | Document JNull => inr zero_build
  | Document (JObject o) => build_fields o
  | Document _ => inl (UnmarshalTypeError "PipelineBuild")
  end.

(** [json.Unmarshal([]byte(data), &mapPB)] with [mapPB] a nil
    [map[string]interface{}]: null leaves the map nil. *)
Definition map (data : payload) : error + list (string * json) :=
  match data with
  | NotJSON _ => inl SyntaxError
  | Document JNull => inr []
  | Document (JObject o) => inr o
  | Document _ => inl (UnmarshalTypeError "map[string]interface {}")
  end.

End Unmarshal.

(* ===================================================================== *)
(** ** The stores, the log and the clock *)
(* ===================================================================== *)

Inductive severity : Type := Critical | Notice.

Record log_entry : Type := {
  log_severity : severity;
  log_message : string;          (* the format string of the call *)
  log_id : Z                     (* its integer argument, 0 when none *)
}.

(** A row of the legacy table [pipeline_history_old]. *)
Record history_row : Type := {
  h_pipeline_build_id : Z;
  h_application_id : Z;
  h_pipeline_id : Z;
  h_environment_id : Z;
  h_vcs_changes_branch : option string;   (* NULL is [None] *)
  h_version : Z;
  h_data : payload
}.

(** A row of the target table [pipeline_build], with the columns of the
    INSERT that the typed build carries; [args] and [stages] hold the
    values whose JSON text the code stores. *)
Record build_row : Type := {
  row_id : Z;
  row_pipeline_id : Z;
  row_build_number : Z;
  row_version : Z;
  row_status : string;
  row_args : option (list sdkParameter);
  row_application_id : Z;
  row_environment_id : Z;
  row_triggered_by : option Z;
  row_parent_pipeline_build_id : option Z;
  row_stages : option (list Stage)
}.

Record world : Type := {
  pipeline_history_old : list history_row;
  pipeline_build : list build_row;
  logs : list log_entry;        (* oldest first *)
  clock : nat                   (* how many times the clock was read *)
}.

(** What the run cannot decide from the stored data. *)
Record Env : Type := {
  now : nat -> Time;                 (* the n-th reading of [time.Now()] *)
  distinct_fails : bool;             (* the query of the groups fails *)
  criteria_fails : Z -> Z -> Z -> option string -> bool;
  begin_fails : Z -> bool;           (* by candidate id *)
  locked_elsewhere : Z -> bool;      (* another session holds the row lock *)
  count_fails : Z -> bool;
  insert_fails : Z -> bool;          (* the INSERT is refused, by build id *)
  commit_fails : Z -> bool
}.

(** A transaction: the row locks it holds and the rows it has written,
    which reach the table at commit and are dropped at rollback. *)
Record Tx : Type := {
  tx_locks : list Z;
  tx_writes : list build_row
}.

Definition set_logs (w : world) (l : list log_entry) : world :=
  {| pipeline_history_old := pipeline_history_old w;
     pipeline_build := pipeline_build w;
     logs := l;
     clock := clock w |}.

Definition set_pipeline_build (w : world) (t : list build_row) : world :=
  {| pipeline_history_old := pipeline_history_old w;
     pipeline_build := t;
     logs := logs w;
     clock := clock w |}.

Definition log (sev : severity) (msg : string) (id : Z) (w : world) : world :=
  set_logs w (logs w ++ [ {| log_severity := sev; log_message := msg; log_id := id |} ]).

Definition tick (w : world) : world :=
  {| pipeline_history_old := pipeline_history_old w;
     pipeline_build := pipeline_build w;
     logs := logs w;
     clock := S (clock w) |}.

Definition has_id (id : Z) (r : build_row) : bool := row_id r =? id.

(** [db.Begin()]. *)
Definition Begin (env : Env) (id : Z) : error + Tx :=
  if begin_fails env id then inl ErrBegin
  else inr {| tx_locks := []; tx_writes := [] |}.

(** [SELECT data FROM pipeline_history_old WHERE pipeline_build_id = $1
    FOR UPDATE NOWAIT], scanned into a string. *)
Definition select_data_for_update (env : Env) (tx : Tx) (id : Z) (w : world)
    : error + (payload * Tx) :=
  match find (fun r => h_pipeline_build_id r =? id) (pipeline_history_old w) with
  | None => inl ErrNoRows
  | Some r =>
      if locked_elsewhere env id then inl ErrLockNotAvailable
      else inr (h_data r, {| tx_locks := id :: tx_locks tx; tx_writes := tx_writes tx |})
  end.

(** [SELECT count(1) FROM pipeline_build where id = $1], run in the
    transaction: it sees the table and the transaction's own writes. *)
Definition select_count (env : Env) (tx : Tx) (id : Z) (w : world) : error + Z :=
  if count_fails env id then inl ErrQuery
  else inr (Z.of_nat (List.length (filter (has_id id) (pipeline_build w ++ tx_writes tx)))).

(** Who runs a statement: the connection pool [db] (the statement is
    committed on its own) or a transaction [tx]. *)
Inductive executor : Type := OnDb | OnTx.

(** [Exec(queryInsert, ...)]: the id is the key of the table. A statement
    of [db] sees the table and writes to it at once; a statement of [tx]
    sees the writes of [tx] too, and its own write waits for the commit. *)
Definition Exec_insert (env : Env) (ex : executor) (r : build_row) (tx : Tx) (w : world)
    : option error * Tx * world :=
  match ex with
  | OnDb =>
      if insert_fails env (row_id r) || existsb (has_id (row_id r)) (pipeline_build w)
      then (Some ErrInsert, tx, w)
      else (None, tx, set_pipeline_build w (pipeline_build w ++ [r]))
  | OnTx =>
      if insert_fails env (row_id r)
         || existsb (has_id (row_id r)) (pipeline_build w ++ tx_writes tx)
      then (Some ErrInsert, tx, w)
      else (None, {| tx_locks := tx_locks tx; tx_writes := tx_writes tx ++ [r] |}, w)
  end.

(** [tx.Commit()]: on success the transaction's writes reach the table. *)
Definition Commit (env : Env) (id : Z) (tx : Tx) (w : world) : option error * world :=
  if commit_fails env id then (Some ErrCommit, w)
  else (None, set_pipeline_build w (pipeline_build w ++ tx_writes tx)).

(** [tx.Rollback()]: the transaction's writes and locks are dropped; the
    table is as it was. *)
Definition Rollback (tx : Tx) (w : world) : world := w.

(* ===================================================================== *)
(** ** Computations: state passing, with panics *)
(* ===================================================================== *)

(** A computation reads and writes the [world] and completes or panics;
    the [world] at the panic is kept. *)
Definition M (A : Type) : Type := world -> outcome A * world.

Definition ret {A : Type} (a : A) : M A := fun w => (Normal a, w).

Definition bind {A B : Type} (c : M A) (f : A -> M B) : M B :=
  fun w =>
    match c w with
    | (Normal a, w') => f a w'
    | (Panic r, w') => (Panic r, w')
    end.

Definition lift {A : Type} (o : outcome A) : M A := fun w => (o, w).

Declare Scope go_scope.
Delimit Scope go_scope with go.
Notation "x <- c ;; k" := (bind c (fun x => k))
  (at level 100, c at next level, right associativity) : go_scope.
Notation "c ;;; k" := (bind c (fun _ => k))
  (at level 100, right associativity) : go_scope.
Local Open Scope go_scope.

(** [time.Now()]. *)
Definition time_Now (env : Env) : M Time :=
  fun w => (Normal (now env (clock w)), tick w).

Definition logM (sev : severity) (msg : string) (id : Z) : M unit :=
  fun w => (Normal tt, log sev msg id w).

(* ===================================================================== *)
(** ** getPipelineBuild *)
(* ===================================================================== *)

(** The six results of [getPipelineBuild]. *)
Record result : Type := {
  res_pb : option PipelineBuild;
  res_args : option (list sdkParameter);
  res_parentID : option Z;
  res_userID : option Z;
  res_stagesJSONByte : option (list Stage);
  res_err : option error
}.

(** [return nil, nil, nil, nil, nil, err]. *)
Definition nils (err : option error) : result :=
  {| res_pb := None; res_args := None; res_parentID := None; res_userID := None;
     res_stagesJSONByte := None; res_err := err |}.

(** A loop body either goes on to the next iteration or returns from the
    function. *)
Inductive flow (A : Type) : Type :=
| Next (a : A)
| Return (r : result).
Arguments Next {A} a.
Arguments Return {A} r.

Definition clear_jobs (s : Stage) : Stage :=
  {| Stage_ID := Stage_ID s; Stage_Name := Stage_Name s; Stage_Status := Stage_Status s;
     Stage_Jobs := []; Stage_PipelineBuildJobs := [] |}.

(** The loop [for i := range pb.Stages] that looks for the stage of id
    [sID]: every stage with that id has its two job lists emptied, and
    [stageToUpdate] ends on the last of them ([i] is the index of the head
    of [stages]). *)
Fixpoint findStageToUpdate (sID : Z) (stages : list Stage) (i : nat)
    (stageToUpdate : option nat) : option nat * list Stage :=
  match stages with
  | [] => (stageToUpdate, [])
  | s :: rest =>
      if Stage_ID s =? sID then
        let '(p, rest') := findStageToUpdate sID rest (S i) (Some i) in
        (p, clear_jobs s :: rest')
      else
        let '(p, rest') := findStageToUpdate sID rest (S i) stageToUpdate in
        (p, s :: rest')
  end.

(** [stageToUpdate.Jobs = append(...)] and
    [stageToUpdate.PipelineBuildJobs = append(...)]. *)
Definition append_job (s : Stage) (pbJob : PipelineBuildJob) : Stage :=
  {| Stage_ID := Stage_ID s; Stage_Name := Stage_Name s; Stage_Status := Stage_Status s;
     Stage_Jobs := Stage_Jobs s ++ [PipelineBuildJob_Job pbJob];
     Stage_PipelineBuildJobs := Stage_PipelineBuildJobs s ++ [pbJob] |}.

(** The body of the loop over [stageString["builds"]] up to the built
    [pbJob]. [start.Format(startTimeS)] and [done.Format(doneTimeS)] give
    a string that the code drops: [start] and [done] stay the two readings
    of the clock. [json.Marshal(bString["args"])] has no error on a value
    of the dynamic tree, and what is decoded from its text is that value. *)
Definition buildJob (env : Env) (pbID : Z) (buildString : json)
    : M (flow PipelineBuildJob) :=
  bString <- lift (assert_map buildString) ;;
  startTimeS <- lift (assert_string (lookup "start" bString)) ;;
  doneTimeS <- lift (assert_string (lookup "done" bString)) ;;
  start <- time_Now env ;;
  done <- time_Now env ;;
  match Unmarshal.parameters (lookup "args" bString) with
  | inl errParam =>
      logM Critical "MigratePipelineHistory>  Cannot unmarshall parameters: %s" 0 ;;;
      ret (Return (nils (Some errParam)))
  | inr parameters =>
      id <- lift (assert_float64 (lookup "id" bString)) ;;
      status <- lift (assert_string (lookup "status" bString)) ;;
      name <- lift (assert_string (lookup "action_name" bString)) ;;
      paID <- lift (assert_float64 (lookup "pipeline_action_id" bString)) ;;
      ret (Next
        {| PipelineBuildJob_ID := int64_of_float64 id;
           PipelineBuildJob_Parameters := parameters;
           PipelineBuildJob_PipelineBuildID := pbID;
           PipelineBuildJob_Model := "";
           PipelineBuildJob_Status := status;
           PipelineBuildJob_Job :=
             {| Job_Action := {| Action_Name := name |};
                Job_Enabled := true;
                Job_PipelineActionID := int64_of_float64 paID |};
           PipelineBuildJob_Start := start;
           PipelineBuildJob_Done := done |})
  end.

(** The loop over [stageString["builds"]]; [stageToUpdate] is the stage
    the pointer designates. *)
Fixpoint buildsLoop (env : Env) (pbID : Z) (builds : list json) (stageToUpdate : Stage)
    : M (flow Stage) :=
  match builds with
  | [] => ret (Next stageToUpdate)
  | buildString :: rest =>
      r <- buildJob env pbID buildString ;;
      match r with
      | Return res => ret (Return res)
      | Next pbJob => buildsLoop env pbID rest (append_job stageToUpdate pbJob)
      end
  end.

(** [pb.Stages[i] = s]. *)
Fixpoint store (i : nat) (s : Stage) (stages : list Stage) : list Stage :=
  match stages, i with
  | [], _ => []
  | _ :: rest, O => s :: rest
  | s0 :: rest, S i' => s0 :: store i' s rest
  end.

(** The body of the loop over [mapPB["stages"]]: the stage is looked up,
    then its jobs are rebuilt in place. *)
Definition stageEntry (env : Env) (pbID : Z) (jsonStageString : json)
    (stages : list Stage) : M (flow (list Stage)) :=
  stageString <- lift (assert_map jsonStageString) ;;
  sID <- lift (assert_float64 (lookup "id" stageString)) ;;
  let '(stageToUpdate, stages) :=
    findStageToUpdate (int64_of_float64 sID) stages 0 None in
  match stageToUpdate with
  | None =>
      logM Critical "MigratePipelineHistory>  Cannot get stage to update %d" pbID ;;;
      ret (Return (nils None))
  | Some i =>
      builds <- lift (assert_slice (lookup "builds" stageString)) ;;
      r <- buildsLoop env pbID builds (nth i stages Unmarshal.zero_stage) ;;
      match r with
      | Return res => ret (Return res)
      | Next s => ret (Next (store i s stages))
      end
  end.

(** The loop over [mapPB["stages"].([]interface{})]. *)
Fixpoint stagesLoop (env : Env) (pbID : Z) (entries : list json) (stages : list Stage)
    : M (flow (list Stage)) :=
  match entries with
  | [] => ret (Next stages)
  | jsonStageString :: rest =>
      r <- stageEntry env pbID jsonStageString stages ;;
      match r with
      | Return res => ret (Return res)
      | Next stages' => stagesLoop env pbID rest stages'
      end
  end.

(** The inner loop of the computation of the stage status, with its
    [break]. *)
Fixpoint finalStatus (jobs : list PipelineBuildJob) : Status :=
  match jobs with
  | [] => StatusSuccess
  | pbJob :: rest =>
      if String.eqb (PipelineBuildJob_Status pbJob) (Status_String StatusFail)
      then StatusFail
      else finalStatus rest
  end.

Definition set_Status (s : Stage) (st : Status) : Stage :=
  {| Stage_ID := Stage_ID s; Stage_Name := Stage_Name s; Stage_Status := st;
     Stage_Jobs := Stage_Jobs s; Stage_PipelineBuildJobs := Stage_PipelineBuildJobs s |}.

(** The loop [for i := range pb.Stages] under "Calcul stage status". *)
Definition calculStageStatus (stages : list Stage) : list Stage :=
  List.map (fun stage => set_Status stage (finalStatus (Stage_PipelineBuildJobs stage))) stages.

(** The end of [getPipelineBuild], from the marshalling of the parameters
    on; [json.Marshal] has no error on these values. *)
Definition finish (pb : PipelineBuild) : result :=
  let args := PipelineBuild_Parameters pb in
  let parentID := PipelineBuild_PreviousPipelineBuild pb in
  let userID := PipelineBuild_TriggeredBy pb in
  let pb := set_Stages pb (calculStageStatus (PipelineBuild_Stages pb)) in
  {| res_pb := Some pb; res_args := Some args; res_parentID := parentID;
     res_userID := userID; res_stagesJSONByte := Some (PipelineBuild_Stages pb);
     res_err := None |}.

(** The part of [getPipelineBuild] under "Start rebuilding stages struct". *)
Definition rebuild (env : Env) (pb : PipelineBuild) (data : payload) (pbHistoryID : Z)
    : M result :=
  match Unmarshal.map data with
  | inl err =>
      logM Critical
        "MigratePipelineHistory>  Cannot unmarshal mapStringInterface pipeline History %d: %s"
        pbHistoryID ;;;
      ret (nils (Some err))
  | inr mapPB =>
      match lookup "stages" mapPB with
      | None =>
          logM Critical "MigratePipelineHistory>  No stages on pipeline build %d"
               (PipelineBuild_ID pb) ;;;
          ret (nils None)
      | Some _ =>
          if negb (is_nil (lookup "stages" mapPB)) then
            entries <- lift (assert_slice (lookup "stages" mapPB)) ;;
            r <- stagesLoop env (PipelineBuild_ID pb) entries (PipelineBuild_Stages pb) ;;
            match r with
            | Return res => ret res
            | Next stages => ret (finish (set_Stages pb stages))
            end
          else
            ret (finish (set_Stages pb []))
      end
  end.

Definition getPipelineBuild (env : Env) (tx : Tx) (pbHistoryID : Z) : M (result * Tx) :=
  fun w =>
  match select_data_for_update env tx pbHistoryID w with
  | inl err =>
      (logM Critical
        "MigratePipelineHistory>  Cannot select data from  pipeline history %d: %s"
        pbHistoryID ;;;
       ret (nils (Some err), tx)) w
  | inr (data, tx) =>
      match Unmarshal.build data with
      | inl err =>
          (logM Critical
            "MigratePipelineHistory>  Cannot unmarshal pipeline History %d: %s"
            pbHistoryID ;;;
           ret (nils (Some err), tx)) w
      | inr pb =>
          match select_count env tx (PipelineBuild_ID pb) w with
          | inl err =>
              (logM Critical
                "MigratePipelineHistory>  Cannot count pipeline build %d: %s"
                pbHistoryID ;;;
               ret (nils (Some err), tx)) w
          | inr nb =>
              if negb (nb =? 0) then ret (nils None, tx) w
              else
                (res <- rebuild env pb data pbHistoryID ;;
                 ret (res, tx)) w
          end
      end
  end.

(* ===================================================================== *)
(** ** The two queries of MigratePipelineHistory *)
(* ===================================================================== *)

(** A row of the query of the groups. *)
Record group : Type := {
  g_appID : Z;
  g_pipID : Z;
  g_envID : Z;
  g_branchName : option string       (* sql.NullString *)
}.

Definition group_of (r : history_row) : group :=
  {| g_appID := h_application_id r; g_pipID := h_pipeline_id r;
     g_envID := h_environment_id r; g_branchName := h_vcs_changes_branch r |}.

Definition branch_eqb (a b : option string) : bool :=
  match a, b with
  | None, None => true
  | Some x, Some y => String.eqb x y
  | _, _ => false
  end.

(** Equality of two rows for DISTINCT: two NULLs are not distinct. *)
Definition group_eqb (a b : group) : bool :=
  (g_appID a =? g_appID b) && (g_pipID a =? g_pipID b) && (g_envID a =? g_envID b)
  && branch_eqb (g_branchName a) (g_branchName b).

(** Ascending order of a nullable text column: NULL comes last. *)
Definition branch_leb (a b : option string) : bool :=
  match a, b with
  | _, None => true
  | None, Some _ => false
  | Some x, Some y => String.leb x y
  end.

(** [ORDER by application_id, pipeline_id, environment_id,
    vcs_changes_branch]. *)
Definition group_leb (a b : group) : bool :=
  if g_appID a =? g_appID b then
    if g_pipID a =? g_pipID b then
      if g_envID a =? g_envID b then branch_leb (g_branchName a) (g_branchName b)
      else g_envID a <? g_envID b
    else g_pipID a <? g_pipID b
  else g_appID a <? g_appID b.

Section Sort.
Variable A : Type.
Variable leb : A -> A -> bool.

(** Insertion behind the elements that are not after [x]: the sort keeps
    the order of the table among equal keys. *)
Fixpoint insert_sorted (x : A) (l : list A) : list A :=
  match l with
  | [] => [x]
  | y :: rest => if leb y x then y :: insert_sorted x rest else x :: y :: rest
  end.

Definition order_by (l : list A) : list A :=
  fold_left (fun acc x => insert_sorted x acc) l [].
End Sort.
Arguments insert_sorted {A} leb x l.
Arguments order_by {A} leb l.

Definition distinct (l : list group) : list group :=
  fold_left (fun acc g => if existsb (group_eqb g) acc then acc else (acc ++ [g])%list) l [].

(** [SELECT distinct application_id, pipeline_id, environment_id,
    vcs_changes_branch FROM pipeline_history_old ORDER by ...]. *)
Definition queryDistinct (w : world) : list group :=
  order_by group_leb (distinct (List.map group_of (pipeline_history_old w))).

(** The comparison [vcs_changes_branch = $4] of SQL: it is true only of
    two values that are not NULL and are equal. *)
Definition sql_eq_text (column arg : option string) : bool :=
  match column, arg with
  | Some x, Some y => String.eqb x y
  | _, _ => false
  end.

(** The WHERE clause of [querySelectByCriteria]. *)
Definition criteria (g : group) (r : history_row) : bool :=
  (h_application_id r =? g_appID g) && (h_pipeline_id r =? g_pipID g)
  && (h_environment_id r =? g_envID g)
  && sql_eq_text (h_vcs_changes_branch r) (g_branchName g).

(** [ORDER BY version DESC]. *)
Definition version_desc (a b : history_row) : bool := h_version b <=? h_version a.

(** [SELECT pipeline_build_id FROM pipeline_history_old WHERE ... ORDER BY
    version DESC LIMIT 10]. *)
Definition querySelectByCriteria (g : group) (w : world) : list Z :=
  List.map h_pipeline_build_id
    (firstn 10 (order_by version_desc (filter (criteria g) (pipeline_history_old w)))).

(* ===================================================================== *)
(** ** MigratePipelineHistory *)
(* ===================================================================== *)

(** The row of [queryInsert], from the results of [getPipelineBuild]. *)
Definition insert_row (pb : PipelineBuild) (res : result) : build_row :=
  {| row_id := PipelineBuild_ID pb;
     row_pipeline_id := PipelineBuild_PipelineID pb;
     row_build_number := PipelineBuild_BuildNumber pb;
     row_version := PipelineBuild_Version pb;
     row_status := Status_String (PipelineBuild_Status pb);
     row_args := res_args res;
     row_application_id := PipelineBuild_ApplicationID pb;
     row_environment_id := PipelineBuild_EnvironmentID pb;
     row_triggered_by := res_userID res;
     row_parent_pipeline_build_id := res_parentID res;
     row_stages := res_stagesJSONByte res |}.

(** The panic of Go on [p.f] with [p] nil. *)
Definition nil_dereference : string :=
  "runtime error: invalid memory address or nil pointer dereference".

(** The body of the loop [rowsLoop], for the candidate [pbHistoryID]. The
    error [errGetPB] is not read, and the arguments of the INSERT are
    evaluated from [pb] whatever [getPipelineBuild] returned: [pb.ID] on a
    nil [pb] is a nil pointer dereference. The INSERT is run by [db], the
    connection pool, not by [tx]. *)
Definition migrateCandidate (env : Env) (pbHistoryID : Z) : M unit :=
  logM Notice "Pipeline History: migrating %d" pbHistoryID ;;;
  match Begin env pbHistoryID with
  | inl errBegin =>
      logM Critical "MigratePipelineHistory>  Cannot start transaction: %s" 0
  | inr tx =>
      r <- getPipelineBuild env tx pbHistoryID ;;
      let '(res, tx) := r in
      match res_pb res with
      | None => lift (Panic nil_dereference)
      | Some pb =>
          fun w =>
          match Exec_insert env OnDb (insert_row pb res) tx w with
          | (Some errInsert, tx, w) =>
              (logM Critical "MigratePipelineHistory>  Cannot insert pipeline build: %s" 0 ;;;
               fun w => (Normal tt, Rollback tx w)) w
          | (None, tx, w) =>
              match Commit env pbHistoryID tx w with
              | (Some err, w) =>
                  (logM Critical "MigratePipelineHistory>  Cannot commit transaction: %s" 0 ;;;
                   fun w => (Normal tt, Rollback tx w)) w
              | (None, w) =>
                  logM Notice "Pipeline History: end migrating %d" pbHistoryID w
              end
          end
      end
  end.

(** The loop [rowsLoop] over the rows of [rowsSelectCriteria]. *)
Fixpoint rowsLoop (env : Env) (ids : list Z) : M unit :=
  match ids with
  | [] => ret tt
  | pbHistoryID :: rest =>
      migrateCandidate env pbHistoryID ;;;
      rowsLoop env rest
  end.

(** The body of the loop over the groups. The candidates are the rows the
    query returns when it is run, before any of them is migrated. *)
Definition migrateGroup (env : Env) (g : group) : M unit :=
  if criteria_fails env (g_appID g) (g_pipID g) (g_envID g) (g_branchName g) then
    logM Critical "MigratePipelineHistory>  Cannot get pipeline history by criteria: %s" 0
  else
    fun w => rowsLoop env (querySelectByCriteria g w) w.

Fixpoint groupsLoop (env : Env) (groups : list group) : M unit :=
  match groups with
  | [] => ret tt
  | g :: rest =>
      migrateGroup env g ;;;
      groupsLoop env rest
  end.

(** [MigratePipelineHistory]: its result is the returned error, unless the
    run panics. *)
Definition MigratePipelineHistory (env : Env) : M (option error) :=
  if distinct_fails env then
    logM Critical "MigratePipelineHistory>  Cannot select distinct pipeline history" 0 ;;;
    ret (Some ErrQuery)
  else
    fun w =>
      (groupsLoop env (queryDistinct w) ;;;
       ret None) w.

(* ===================================================================== *)
(** ** updateParametersInPipelineHandler: the three batches *)
(* ===================================================================== *)

(** The handler compares the parameters of the pipeline, [pip.Parameter],
    with the ones of the request, [pipParams], by their [ID] alone. The
    struct [sdk.Parameter] is declared in package sdk; the comparison is
    given here for any type of parameters with an [ID]. *)
Section UpdateParameters.
Variable Param : Type.
Variable Param_ID : Param -> Z.

(** The loop [for _, new := range pipParams] with its [break]: the first
    parameter of the request that has the id [id]. *)
Fixpoint first_new (id : Z) (pipParams : list Param) : option Param :=
  match pipParams with
  | [] => None
  | new :: rest => if id =? Param_ID new then Some new else first_new id rest
  end.

(** The loop over [pip.Parameter]: a parameter whose id is in the request
    puts the parameter of the request in [updated]; another one goes to
    [deleted]. *)
Fixpoint updated_and_deleted (parameters pipParams updated deleted : list Param)
    : list Param * list Param :=
  match parameters with
  | [] => (updated, deleted)
  | p :: rest =>
      match first_new (Param_ID p) pipParams with
      | Some new => updated_and_deleted rest pipParams (updated ++ [new]) deleted
      | None => updated_and_deleted rest pipParams updated (deleted ++ [p])
      end
  end.

(** The loop [for _, p := range pip.Parameter] with its [break]: is the
    id [id] the id of a parameter of the pipeline? *)
Fixpoint found (id : Z) (parameters : list Param) : bool :=
  match parameters with
  | [] => false
  | p :: rest => if Param_ID p =? id then true else found id rest
  end.

(** The second loop over [pipParams]: the parameters of the request whose
    id the pipeline does not have. *)
Fixpoint added_loop (pipParams parameters added : list Param) : list Param :=
  match pipParams with
  | [] => added
  | new :: rest =>
      if found (Param_ID new) parameters then added_loop rest parameters added
      else added_loop rest parameters (added ++ [new])
  end.

(** The three batches, and the body of the answer,
    [append(added, updated...)]. *)
Record batches : Type := {
  deleted : list Param;
  updated : list Param;
  added : list Param
}.

Definition compare_parameters (parameters pipParams : list Param) : batches :=
  let '(u, d) := updated_and_deleted parameters pipParams [] [] in
  {| deleted := d; updated := u; added := added_loop pipParams parameters [] |}.

Definition answer (b : batches) : list Param := (added b ++ updated b)%list.

End UpdateParameters.
Arguments first_new {Param} Param_ID id pipParams.
Arguments updated_and_deleted {Param} Param_ID parameters pipParams updated deleted.
Arguments found {Param} Param_ID id parameters.
Arguments added_loop {Param} Param_ID pipParams parameters added.
Arguments deleted {Param} b.
Arguments updated {Param} b.
Arguments added {Param} b.
Arguments compare_parameters {Param} Param_ID parameters pipParams.
Arguments answer {Param} b.

(* ===================================================================== *)
(** ** Package templateextension: Apply and LoadByType *)
(* ===================================================================== *)

Module templateextension.

(** The structs of package sdk that [Apply] and [LoadByType] read or
    write, with the fields they touch; their declarations are in package
    sdk, not among the sources. *)
Record TemplateParam : Type := {
  TemplateParam_Name : string;
  TemplateParam_Type : string;
  TemplateParam_Value : string
}.

Record sdkVariable : Type := {
  Variable_Name : string;
  Variable_Value : string
}.

Record RepositoriesManager : Type := { RepositoriesManager_Name : string }.

Record Application : Type := {
  Application_Name : string;
  Application_ProjectKey : string;
  Application_RepositoriesManager : option RepositoriesManager;   (* a pointer *)
  Application_RepositoryFullname : string;
  Application_Variable : list sdkVariable
}.

Record Template : Type := {
  Template_ID : Z;
  Template_Name : string;
  Template_Description : string;
  Template_Params : list TemplateParam
}.

Record TemplateExtension : Type := {
  TemplateExtension_ID : Z;
  TemplateExtension_Name : string;
  TemplateExtension_Type : string;
  TemplateExtension_Description : string
}.

Definition UglyID : Z := 10000.

Definition EmptyTemplate : Template :=
  {| Template_ID := UglyID; Template_Name := "Void";
     Template_Description := "Empty template"; Template_Params := [] |}.

(** [strings.SplitN(s, "##", 2)], when it cuts [s]: what is before the
    first "##" and what is after it. *)
Fixpoint cut (s : string) : option (string * string) :=
  match s with
  | EmptyString => None
  | String "#"%char (String "#"%char after) => Some (EmptyString, after)
  | String c rest =>
      match cut rest with
      | Some (before, after) => Some (String c before, after)
      | None => None
      end
  end.

Definition SplitN (s : string) : list string :=
  match cut s with
  | Some (before, after) => [before; after]
  | None => [s]
  end.

(** [parameters[name] = value] on a [map[string]string]. *)
Fixpoint map_set (name value : string) (m : list (string * string)) : list (string * string) :=
  match m with
  | [] => [(name, value)]
  | (k, v) :: rest =>
      if String.eqb k name then (k, value) :: rest else (k, v) :: map_set name value rest
  end.

Fixpoint map_get (name : string) (m : list (string * string)) : option string :=
  match m with
  | [] => None
  | (k, v) :: rest => if String.eqb k name then Some v else map_get name rest
  end.

Section Calls.

(** The errors, and what [Apply] and [LoadByType] call outside of the
    package: the pattern of the names, the template itself (a plugin),
    the repositories managers and the database. *)
Variable E : Type.
Variable ErrInvalidApplicationPattern : E.
Variable RepositoryVariable : string.                 (* sdk.RepositoryVariable *)
Variable NamePattern_MatchString : string -> bool.    (* regexp of sdk.NamePattern *)
Variable templ_Apply :
  string -> string -> list (string * string) -> Application * option E.
Variable LoadByName : string -> E + RepositoriesManager.
Variable Client : Type.
Variable AuthorizedClient : string -> string -> E + Client.
Variable RepoByFullname : Client -> string -> E + string.   (* the SSHCloneURL *)

Definition set_Variable_Value (v : sdkVariable) (value : string) : sdkVariable :=
  {| Variable_Name := Variable_Name v; Variable_Value := value |}.

(** The loop [for i := range app.Variable]: each variable of the name of
    the parameter gets the clone URL of the repository. *)
Fixpoint variablesLoop (projKey managerName fullname pName : string)
    (variables : list sdkVariable) : E + list sdkVariable :=
  match variables with
  | [] => inr []
  | v :: rest =>
      if String.eqb (Variable_Name v) pName then
        match AuthorizedClient projKey managerName with
        | inl errClient => inl errClient
        | inr client =>
            match RepoByFullname client fullname with
            | inl errRepo => inl errRepo
            | inr url =>
                match variablesLoop projKey managerName fullname pName rest with
                | inl e => inl e
                | inr rest' => inr (set_Variable_Value v url :: rest')
                end
            end
        end
      else
        match variablesLoop projKey managerName fullname pName rest with
        | inl e => inl e
        | inr rest' => inr (v :: rest')
        end
  end.

(** The loop "Check repo parameter"; [err] is the variable that
    [templ.Apply] assigned and that [LoadByName] assigns again. *)
Fixpoint paramsLoop (projKey : string) (params : list TemplateParam) (app : Application)
    (err : option E) : E + (Application * option E) :=
  match params with
  | [] => inr (app, err)
  | p :: rest =>
      if String.eqb (TemplateParam_Type p) RepositoryVariable then
        match SplitN (TemplateParam_Value p) with
        | [manager; fullname] =>
            match LoadByName manager with
            | inl e => inl e
            | inr rm =>
                match variablesLoop projKey (RepositoriesManager_Name rm) fullname
                        (TemplateParam_Name p) (Application_Variable app) with
                | inl e => inl e
                | inr variables =>
                    paramsLoop projKey rest
                      {| Application_Name := Application_Name app;
                         Application_ProjectKey := Application_ProjectKey app;
                         Application_RepositoriesManager := Some rm;
                         Application_RepositoryFullname := fullname;
                         Application_Variable := variables |}
                      None
                end
            end
        | _ => paramsLoop projKey rest app err
        end
      else paramsLoop projKey rest app err
  end.

(** The map of the parameters, by name. *)
Definition parameters_of (params : list TemplateParam) : list (string * string) :=
  fold_left (fun m p => map_set (TemplateParam_Name p) (TemplateParam_Value p) m) params [].

(** [Apply]: the returned pointer (nil is [None]) and the returned
    error. *)
Definition Apply (projKey : string) (params : list TemplateParam) (appName : string)
    : option Application * option E :=
  if negb (NamePattern_MatchString appName) then (None, Some ErrInvalidApplicationPattern)
  else
    let '(app, err) := templ_Apply projKey appName (parameters_of params) in
    match paramsLoop projKey params app err with
    | inl e => (None, Some e)
    | inr (app, err) =>
        (Some {| Application_Name := appName;
                 Application_ProjectKey := projKey;
                 Application_RepositoriesManager := Application_RepositoriesManager app;
                 Application_RepositoryFullname := Application_RepositoryFullname app;
                 Application_Variable := Application_Variable app |},
         err)
    end.

(** The two queries of [LoadByType] and the decoding of the parameters. *)
Variable select_by_type : string -> E + list TemplateExtension.
Variable select_params : Z -> E + string.
Variable unmarshal_params : string -> E + list TemplateParam.

(** The loop [for _, t := range tplFromDB]. *)
Fixpoint templatesLoop (tplFromDB : list TemplateExtension) (tpl : list Template)
    : E + list Template :=
  match tplFromDB with
  | [] => inr tpl
  | t :: rest =>
      match select_params (TemplateExtension_ID t) with
      | inl err => inl err
      | inr str =>
          match unmarshal_params str with
          | inl err => inl err
          | inr params =>
              templatesLoop rest
                (tpl ++ [ {| Template_ID := TemplateExtension_ID t;
                             Template_Name := TemplateExtension_Name t;
                             Template_Description := TemplateExtension_Description t;
                             Template_Params := params |} ])
          end
      end
  end.

Definition LoadByType (t : string) : E + list Template :=
  match select_by_type t with
  | inl err => inl err
  | inr tplFromDB => templatesLoop tplFromDB [EmptyTemplate]
  end.

End Calls.

End templateextension.

(* ===================================================================== *)
(** ** Sample data *)
(* ===================================================================== *)

Module Sample.

(** An environment without faults; the clock reads 1000, 1001, ... *)
Definition quiet : Env :=
  {| now := fun n => 1000 + Z.of_nat n;
     distinct_fails := false;
     criteria_fails := fun _ _ _ _ => false;
     begin_fails := fun _ => false;
     locked_elsewhere := fun _ => false;
     count_fails := fun _ => false;
     insert_fails := fun _ => false;
     commit_fails := fun _ => false |}.

(** The same, but the commit of candidate 42 fails. *)
Definition commit_42_fails : Env :=
  {| now := now quiet;
     distinct_fails := false;
     criteria_fails := fun _ _ _ _ => false;
     begin_fails := fun _ => false;
     locked_elsewhere := fun _ => false;
     count_fails := fun _ => false;
     insert_fails := fun _ => false;
     commit_fails := fun id => id =? 42 |}.

Definition job (id : Z) (status start done : string) : json :=
  JObject [("id", JNumber id); ("status", JString status);
           ("action_name", JString "build"); ("pipeline_action_id", JNumber 5);
           ("start", JString start); ("done", JString done);
           ("args", JArray [JObject [("name", JString "X"); ("value", JString "1")]])].

(** The example of the specification: build [id], one stage of id 1 with
    the failed job 9. *)
Definition doc (id : Z) : json :=
  JObject [("id", JNumber id); ("pipeline", JObject [("id", JNumber 7)]);
           ("stages", JArray [JObject [("id", JNumber 1);
                                       ("builds", JArray [job 9 "Fail" "t0" "t1"])]])].

Definition doc_without_stages (id : Z) : json :=
  JObject [("id", JNumber id); ("pipeline", JObject [("id", JNumber 7)])].

Definition doc_null_stages (id : Z) : json :=
  JObject [("id", JNumber id); ("pipeline", JObject [("id", JNumber 7)]);
           ("stages", JNull)].

(** A stage whose id, 2^53 + 1, is not a float64. *)
Definition doc_wide_stage_id (id : Z) : json :=
  JObject [("id", JNumber id);
           ("stages", JArray [JObject [("id", JNumber 9007199254740993);
                                       ("builds", JArray [])]])].

Definition row (id version : Z) (branch : option string) (data : payload) : history_row :=
  {| h_pipeline_build_id := id; h_application_id := 1; h_pipeline_id := 7;
     h_environment_id := 1; h_vcs_changes_branch := branch; h_version := version;
     h_data := data |}.

Definition store_of (history : list history_row) (builds : list build_row) : world :=
  {| pipeline_history_old := history; pipeline_build := builds; logs := []; clock := 0 |}.

(** A row of the target table for build [id]. *)
Definition migrated (id : Z) : build_row :=
  {| row_id := id; row_pipeline_id := 7; row_build_number := 1; row_version := 1;
     row_status := "Success"; row_args := Some []; row_application_id := 1;
     row_environment_id := 1; row_triggered_by := None;
     row_parent_pipeline_build_id := None; row_stages := Some [] |}.

Definition no_tx : Tx := {| tx_locks := []; tx_writes := [] |}.

(** Two candidates of one group: 43, the more recent, whose payload is
    not JSON, then 42. *)
Definition one_bad_one_good : world :=
  store_of [row 43 4 (Some "master") (NotJSON "{");
            row 42 3 (Some "master") (Document (doc 42))] [].

(** Two candidates of one group, 42 then 41; 42 is in the target table
    already. *)
Definition one_migrated_one_new : world :=
  store_of [row 42 3 (Some "master") (Document (doc 42));
            row 41 2 (Some "master") (Document (doc 41))] [migrated 42].

(** Eleven records of one group, of ids 101 to 111 and versions 1 to 11. *)
Definition eleven (branch : option string) : world :=
  store_of
    (List.map (fun k => row (100 + k) k branch (Document (doc (100 + k))))
       [1; 2; 3; 4; 5; 6; 7; 8; 9; 10; 11]) [].

Definition group_1_7_1 (branch : option string) : group :=
  {| g_appID := 1; g_pipID := 7; g_envID := 1; g_branchName := branch |}.

(** Two well-formed candidates of one group, 42 then 41, and an empty
    target table. *)
Definition two_new : world :=
  store_of [row 42 3 (Some "master") (Document (doc 42));
            row 41 2 (Some "master") (Document (doc 41))] [].

(** An environment without faults but for the INSERT of build 42, which
    is refused. *)
Definition insert_42_refused : Env :=
  {| now := now quiet;
     distinct_fails := false;
     criteria_fails := fun _ _ _ _ => false;
     begin_fails := fun _ => false;
     locked_elsewhere := fun _ => false;
     count_fails := fun _ => false;
     insert_fails := fun id => id =? 42;
     commit_fails := fun _ => false |}.

Definition only_42 : world :=
  store_of [row 42 3 (Some "master") (Document (doc 42))] [].

Definition stage1 (jobs : list PipelineBuildJob) : Stage :=
  {| Stage_ID := 1; Stage_Name := "compile"; Stage_Status := "";
     Stage_Jobs := List.map PipelineBuildJob_Job jobs; Stage_PipelineBuildJobs := jobs |}.

Definition old_job : PipelineBuildJob :=
  {| PipelineBuildJob_ID := 3; PipelineBuildJob_Parameters := [];
     PipelineBuildJob_PipelineBuildID := 42; PipelineBuildJob_Model := "";
     PipelineBuildJob_Status := "Success";
     PipelineBuildJob_Job := {| Job_Action := {| Action_Name := "old" |};
                                Job_Enabled := false; Job_PipelineActionID := 1 |};
     PipelineBuildJob_Start := 0; PipelineBuildJob_Done := 0 |}.

Definition stage1_entry : json :=
  JObject [("id", JNumber 1); ("builds", JArray [job 9 "Fail" "t0" "t1"])].

(** The job built from [job 9 "Fail" "t0" "t1"] for build 42 when the
    clock reads 1000 and 1001. *)
Definition job9_built : PipelineBuildJob :=
  {| PipelineBuildJob_ID := 9;
     PipelineBuildJob_Parameters :=
       [ {| Parameter_Name := "X"; Parameter_Type := ""; Parameter_Value := "1" |} ];
     PipelineBuildJob_PipelineBuildID := 42; PipelineBuildJob_Model := "";
     PipelineBuildJob_Status := "Fail";
     PipelineBuildJob_Job := {| Job_Action := {| Action_Name := "build" |};
                                Job_Enabled := true; Job_PipelineActionID := 5 |};
     PipelineBuildJob_Start := 1000; PipelineBuildJob_Done := 1001 |}.

End Sample.

(* ===================================================================== *)
(** ** Notions used in the statements *)
(* ===================================================================== *)

Definition failed (pbJob : PipelineBuildJob) : Prop :=
  PipelineBuildJob_Status pbJob = "Fail".

(** What "Calcul stage status" leaves in a stage. *)
Definition status_derived (s : Stage) : Prop :=
  (Stage_Status s = StatusFail <-> Exists failed (Stage_PipelineBuildJobs s))
  /\ (~ Exists failed (Stage_PipelineBuildJobs s) -> Stage_Status s = StatusSuccess).

Definition reset_if (sID : Z) (s : Stage) : Stage :=
  if Stage_ID s =? sID then clear_jobs s else s.

(** The job that the code builds from the entry [b] of a "builds" list,
    leaving its two timestamps aside. *)
Definition job_of_entry (pbID : Z) (b : json) (pbJob : PipelineBuildJob) : Prop :=
  exists m id status name paID,
    b = JObject m
    /\ lookup "id" m = Some (JNumber id)
    /\ lookup "status" m = Some (JString status)
    /\ lookup "action_name" m = Some (JString name)
    /\ lookup "pipeline_action_id" m = Some (JNumber paID)
    /\ Unmarshal.parameters (lookup "args" m) = inr (PipelineBuildJob_Parameters pbJob)
    /\ PipelineBuildJob_ID pbJob = int64_of_float64 (float64_of_Z id)
    /\ PipelineBuildJob_PipelineBuildID pbJob = pbID
    /\ PipelineBuildJob_Status pbJob = status
    /\ PipelineBuildJob_Job pbJob =
         {| Job_Action := {| Action_Name := name |};
            Job_Enabled := true;
            Job_PipelineActionID := int64_of_float64 (float64_of_Z paID) |}.

Definition enabled (pbJob : PipelineBuildJob) : Prop :=
  Job_Enabled (PipelineBuildJob_Job pbJob) = true.

(** The two tables are the same in both worlds. *)
Definition same_tables (w w' : world) : Prop :=
  pipeline_build w' = pipeline_build w
  /\ pipeline_history_old w' = pipeline_history_old w.

(** The build of a candidate, when [getPipelineBuild] returns one. *)
Definition build_of (o : outcome (result * Tx) * world) : option PipelineBuild :=
  match o with
  | (Normal (res, _), _) => res_pb res
  | (Panic _, _) => None
  end.

(** The error of a candidate, when [getPipelineBuild] returns. *)
Definition error_of (o : outcome (result * Tx) * world) : option error :=
  match o with
  | (Normal (res, _), _) => res_err res
  | (Panic _, _) => None
  end.

(** The payload [o] without its identity fields. *)
Definition without_identity (o : list (string * json)) : list (string * json) :=
  remove_key "id" (remove_key "pipeline" o).

Definition set_identity (pb : PipelineBuild) (id pipeline : Z) : PipelineBuild :=
  {| PipelineBuild_ID := id;
     PipelineBuild_PipelineID := pipeline;
     PipelineBuild_ApplicationID := PipelineBuild_ApplicationID pb;
     PipelineBuild_EnvironmentID := PipelineBuild_EnvironmentID pb;
     PipelineBuild_BuildNumber := PipelineBuild_BuildNumber pb;
     PipelineBuild_Version := PipelineBuild_Version pb;
     PipelineBuild_Status := PipelineBuild_Status pb;
     PipelineBuild_Parameters := PipelineBuild_Parameters pb;
     PipelineBuild_TriggeredBy := PipelineBuild_TriggeredBy pb;
     PipelineBuild_PreviousPipelineBuild := PipelineBuild_PreviousPipelineBuild pb;
     PipelineBuild_Stages := PipelineBuild_Stages pb |}.

(* ===================================================================== *)
(** ** Proof tools *)
(* ===================================================================== *)

(** Case analysis on the scrutinee of the first [match] of a hypothesis. *)
Ltac split_match H :=
  match type of H with
  | context [match ?x with _ => _ end] =>
      let E := fresh "E" in destruct x eqn:E; try discriminate H
  end.

Ltac unfold_M := unfold bind, ret, lift, logM, time_Now in *.

(* ===================================================================== *)
(** ** What a return from inside the loops carries *)
(* ===================================================================== *)

Lemma buildJob_Return (env : Env) (pbID : Z) (b : json) (w w' : world) (res : result) :
  buildJob env pbID b w = (Normal (Return res), w') -> exists e, res = nils e.
Proof.
  unfold buildJob. unfold_M. intro H.
  repeat split_match H; simpl in H; try discriminate H.
  all: inversion H; subst; eauto.
Qed.

Lemma buildsLoop_Return (env : Env) (pbID : Z) (builds : list json) :
  forall (s : Stage) (w w' : world) (res : result),
    buildsLoop env pbID builds s w = (Normal (Return res), w') -> exists e, res = nils e.
Proof.
  induction builds as [|b rest IH]; intros s w w' res H; simpl in H.
  - discriminate H.
  - unfold bind in H. destruct (buildJob env pbID b w) as [[r|r] w1] eqn:E; try discriminate H.
    destruct r as [pbJob|res1].
    + eapply IH; eauto.
    + unfold ret in H. inversion H; subst. eapply buildJob_Return; eauto.
Qed.

Lemma stageEntry_Return (env : Env) (pbID : Z) (e : json) (stages : list Stage)
    (w w' : world) (res : result) :
  stageEntry env pbID e stages w = (Normal (Return res), w') -> exists err, res = nils err.
Proof.
  unfold stageEntry. unfold_M. intro H.
  split_match H. simpl in H.
  split_match H. simpl in H.
  destruct (findStageToUpdate (int64_of_float64 a0) stages 0 None) as [p stages1].
  destruct p as [i|].
  - split_match H. simpl in H.
    destruct (buildsLoop env pbID a1 (nth i stages1 Unmarshal.zero_stage) w)
      as [[r|r] w1] eqn:EB; try discriminate H.
    destruct r as [s|res1]; inversion H; subst.
    eapply buildsLoop_Return; eauto.
  - simpl in H. inversion H; subst. eauto.
Qed.

Lemma stagesLoop_Return (env : Env) (pbID : Z) (entries : list json) :
  forall (stages : list Stage) (w w' : world) (res : result),
    stagesLoop env pbID entries stages w = (Normal (Return res), w') ->
    exists err, res = nils err.
Proof.
  induction entries as [|e rest IH]; intros stages w w' res H; simpl in H.
  - discriminate H.
  - unfold bind in H.
    destruct (stageEntry env pbID e stages w) as [[r|r] w1] eqn:E; try discriminate H.
    destruct r as [stages1|res1].
    + eapply IH; eauto.
    + unfold ret in H. inversion H; subst. eapply stageEntry_Return; eauto.
Qed.

(** A build that [getPipelineBuild] returns went through the end of the
    function, where the status of its stages is computed. *)
Lemma rebuild_pb (env : Env) (pb0 : PipelineBuild) (data : payload) (id : Z)
    (w w' : world) (res : result) (pb : PipelineBuild) :
  rebuild env pb0 data id w = (Normal res, w') ->
  res_pb res = Some pb ->
  exists stages, res = finish (set_Stages pb0 stages).
Proof.
  unfold rebuild. unfold_M. intros H Hpb.
  destruct (Unmarshal.map data) as [err|mapPB].
  - simpl in H. inversion H; subst. discriminate Hpb.
  - destruct (lookup "stages" mapPB) as [v|] eqn:Ev.
    + destruct (negb (is_nil (Some v))).
      * split_match H. simpl in H.
        destruct (stagesLoop env (PipelineBuild_ID pb0) a (PipelineBuild_Stages pb0) w)
          as [[r|r] w1] eqn:ES; try discriminate H.
        destruct r as [stages|res1]; inversion H; subst.
        -- eauto.
        -- apply stagesLoop_Return in ES. destruct ES as [err ->]. discriminate Hpb.
      * inversion H; subst. eauto.
    + simpl in H. inversion H; subst. discriminate Hpb.
Qed.

Lemma getPipelineBuild_pb (env : Env) (tx tx' : Tx) (id : Z) (w w' : world)
    (res : result) (pb : PipelineBuild) :
  getPipelineBuild env tx id w = (Normal (res, tx'), w') ->
  res_pb res = Some pb ->
  exists pb0, res = finish pb0.
Proof.
  unfold getPipelineBuild. intros H Hpb.
  destruct (select_data_for_update env tx id w) as [err|[data tx1]].
  - unfold_M. simpl in H. inversion H; subst. discriminate Hpb.
  - destruct (Unmarshal.build data) as [err|pb0].
    + unfold_M. simpl in H. inversion H; subst. discriminate Hpb.
    + destruct (select_count env tx1 (PipelineBuild_ID pb0) w) as [err|nb].
      * unfold_M. simpl in H. inversion H; subst. discriminate Hpb.
      * destruct (negb (nb =? 0)).
        -- unfold_M. inversion H; subst. discriminate Hpb.
        -- unfold bind, ret in H.
           destruct (rebuild env pb0 data id w) as [[r|r] w1] eqn:ER; try discriminate H.
           inversion H; subst.
           destruct (rebuild_pb _ _ _ _ _ _ _ _ ER Hpb) as [stages ->]. eauto.
Qed.

(* ===================================================================== *)
(** ** The status of a stage *)
(* ===================================================================== *)

Lemma finalStatus_Fail (jobs : list PipelineBuildJob) :
  finalStatus jobs = StatusFail <-> Exists failed jobs.
Proof.
  induction jobs as [|j rest IH]; simpl.
  - split; intro H; [discriminate H | inversion H].
  - unfold Status_String, StatusFail.
    destruct (String.eqb (PipelineBuildJob_Status j) "Fail") eqn:E.
    + apply String.eqb_eq in E. split; intro; [left; exact E | reflexivity].
    + apply String.eqb_neq in E. rewrite IH. split; intro H.
      * right; exact H.
      * inversion H; subst; [contradiction | assumption].
Qed.

Lemma finalStatus_Success (jobs : list PipelineBuildJob) :
  ~ Exists failed jobs -> finalStatus jobs = StatusSuccess.
Proof.
  induction jobs as [|j rest IH]; simpl; intro H.
  - reflexivity.
  - unfold Status_String, StatusFail.
    destruct (String.eqb (PipelineBuildJob_Status j) "Fail") eqn:E.
    + apply String.eqb_eq in E. exfalso. apply H. left. exact E.
    + apply IH. intro H1. apply H. right. exact H1.
Qed.

Lemma calculStageStatus_derived (stages : list Stage) :
  Forall status_derived (calculStageStatus stages).
Proof.
  unfold calculStageStatus. apply Forall_forall. intros s Hin.
  apply in_map_iff in Hin. destruct Hin as [s0 [<- _]].
  unfold status_derived; simpl. split.
  - apply finalStatus_Fail.
  - apply finalStatus_Success.
Qed.

(** C7. In every build that [getPipelineBuild] returns, the status of each
    stage is Fail exactly when one of the stage's jobs has the status
    "Fail", and it is Success when none has. *)
Theorem stage_status_is_derived (env : Env) (tx tx' : Tx) (pbHistoryID : Z)
    (w w' : world) (res : result) (pb : PipelineBuild) :
  getPipelineBuild env tx pbHistoryID w = (Normal (res, tx'), w') ->
  res_pb res = Some pb ->
  Forall status_derived (PipelineBuild_Stages pb).
Proof.
  intros H Hpb.
  destruct (getPipelineBuild_pb _ _ _ _ _ _ _ _ H Hpb) as [pb0 ->].
  simpl in Hpb. inversion Hpb; subst. simpl.
  apply calculStageStatus_derived.
Qed.

Lemma stage_status_is_derived_witness :
  exists res tx' w' pb,
    getPipelineBuild Sample.quiet Sample.no_tx 42
      (Sample.store_of [Sample.row 42 3 (Some "master") (Document (Sample.doc 42))] [])
      = (Normal (res, tx'), w')
    /\ res_pb res = Some pb
    /\ List.map Stage_Status (PipelineBuild_Stages pb) = [StatusFail]
    /\ Forall status_derived (PipelineBuild_Stages pb).
Proof.
  let v := eval vm_compute in
    (getPipelineBuild Sample.quiet Sample.no_tx 42
       (Sample.store_of [Sample.row 42 3 (Some "master") (Document (Sample.doc 42))] [])) in
  match v with
  | (Normal (?res, ?tx'), ?w') =>
      match eval vm_compute in (res_pb res) with
      | Some ?pb =>
          exists res, tx', w', pb;
          assert (E : getPipelineBuild Sample.quiet Sample.no_tx 42
                        (Sample.store_of
                           [Sample.row 42 3 (Some "master") (Document (Sample.doc 42))] [])
                      = (Normal (res, tx'), w')) by (vm_compute; reflexivity);
          assert (Epb : res_pb res = Some pb) by reflexivity;
          split; [exact E | split; [exact Epb | split; [reflexivity|]]];
          exact (stage_status_is_derived _ _ _ _ _ _ _ _ E Epb)
      end
  end.
Defined.

(* ===================================================================== *)
(** ** The lookup of the stage to update *)
(* ===================================================================== *)

Lemma findStageToUpdate_stages (sID : Z) (stages : list Stage) :
  forall (i : nat) (acc : option nat),
    snd (findStageToUpdate sID stages i acc) = List.map (reset_if sID) stages.
Proof.
  induction stages as [|s rest IH]; intros i acc; simpl.
  - reflexivity.
  - unfold reset_if at 1. destruct (Stage_ID s =? sID).
    + specialize (IH (S i) (Some i)).
      destruct (findStageToUpdate sID rest (S i) (Some i)) as [p rest']. simpl in *.
      now rewrite IH.
    + specialize (IH (S i) acc).
      destruct (findStageToUpdate sID rest (S i) acc) as [p rest']. simpl in *.
      now rewrite IH.
Qed.

(** The pointer ends on the last stage of that id, or stays as it was
    when there is none. *)
Lemma findStageToUpdate_pointer (sID : Z) (stages : list Stage) :
  forall (i : nat) (acc : option nat),
    (Forall (fun s => Stage_ID s <> sID) stages
     /\ fst (findStageToUpdate sID stages i acc) = acc)
    \/ (exists k s0,
          fst (findStageToUpdate sID stages i acc) = Some (i + k)%nat
          /\ nth_error stages k = Some s0
          /\ Stage_ID s0 = sID
          /\ forall k' s, (k < k')%nat -> nth_error stages k' = Some s -> Stage_ID s <> sID).
Proof.
  induction stages as [|s rest IH]; intros i acc; simpl.
  - left. split; [constructor | reflexivity].
  - destruct (Stage_ID s =? sID) eqn:E.
    + apply Z.eqb_eq in E. right.
      destruct (IH (S i) (Some i)) as [[Hnone Hp] | [k [s0 [Hp [Hk [Hid Hlast]]]]]].
      * exists 0%nat, s.
        destruct (findStageToUpdate sID rest (S i) (Some i)) as [p rest']. simpl in *.
        subst p. rewrite Nat.add_0_r.
        split; [reflexivity | split; [reflexivity | split; [assumption|]]].
        intros k' s1 Hlt Hn. destruct k' as [|k']; [lia|]. simpl in Hn.
        rewrite Forall_forall in Hnone. apply Hnone. eapply nth_error_In; eauto.
      * exists (S k), s0.
        destruct (findStageToUpdate sID rest (S i) (Some i)) as [p rest']. simpl in *.
        subst p.
        split; [apply f_equal; lia | split; [assumption | split; [assumption|]]].
        intros k' s1 Hlt Hn. destruct k' as [|k']; [lia|]. simpl in Hn.
        eapply Hlast; [|eauto]. lia.
    + apply Z.eqb_neq in E.
      destruct (IH (S i) acc) as [[Hnone Hp] | [k [s0 [Hp [Hk [Hid Hlast]]]]]].
      * left.
        destruct (findStageToUpdate sID rest (S i) acc) as [p rest']. simpl in *.
        split; [constructor; assumption | assumption].
      * right. exists (S k), s0.
        destruct (findStageToUpdate sID rest (S i) acc) as [p rest']. simpl in *.
        subst p.
        split; [apply f_equal; lia | split; [assumption | split; [assumption|]]].
        intros k' s1 Hlt Hn. destruct k' as [|k']; [lia|]. simpl in Hn.
        eapply Hlast; [|eauto]. lia.
Qed.

Lemma findStageToUpdate_None (sID : Z) (stages : list Stage) :
  (forall s, In s stages -> Stage_ID s <> sID) ->
  findStageToUpdate sID stages 0 None = (None, stages).
Proof.
  intro Hno.
  assert (Hgen : forall i acc, findStageToUpdate sID stages i acc = (acc, stages)).
  { induction stages as [|s rest IH]; intros i acc; simpl.
    - reflexivity.
    - destruct (Stage_ID s =? sID) eqn:E.
      + apply Z.eqb_eq in E. exfalso. apply (Hno s); [left; reflexivity | exact E].
      + rewrite IH; [reflexivity|]. intros s1 Hin. apply Hno. right. exact Hin. }
  apply Hgen.
Qed.

Lemma store_same (i : nat) (s : Stage) (stages : list Stage) :
  (i < List.length stages)%nat -> nth_error (store i s stages) i = Some s.
Proof.
  revert i. induction stages as [|s0 rest IH]; intros i Hlt; simpl in *.
  - lia.
  - destruct i as [|i]; simpl; [reflexivity|]. apply IH. lia.
Qed.

Lemma store_other (i k : nat) (s : Stage) (stages : list Stage) :
  k <> i -> nth_error (store i s stages) k = nth_error stages k.
Proof.
  revert i k. induction stages as [|s0 rest IH]; intros i k Hne; simpl.
  - destruct i; reflexivity.
  - destruct i as [|i]; destruct k as [|k]; simpl; try reflexivity; try lia.
    apply IH. lia.
Qed.

(* ===================================================================== *)
(** ** The jobs built from the dynamic tree *)
(* ===================================================================== *)

Lemma assert_string_Normal (v : option json) (s : string) :
  assert_string v = Normal s -> v = Some (JString s).
Proof.
  destruct v as [[| | | | |]|]; simpl; intro H; inversion H; reflexivity.
Qed.

Lemma assert_float64_Normal (v : option json) (f : Z) :
  assert_float64 v = Normal f -> exists n, v = Some (JNumber n) /\ f = float64_of_Z n.
Proof.
  destruct v as [[| | | | |]|]; simpl; intro H; inversion H; eauto.
Qed.

Lemma assert_slice_Normal (v : option json) (l : list json) :
  assert_slice v = Normal l -> v = Some (JArray l).
Proof.
  destruct v as [[| | | | |]|]; simpl; intro H; inversion H; reflexivity.
Qed.

Lemma assert_map_Normal (v : json) (m : list (string * json)) :
  assert_map v = Normal m -> v = JObject m.
Proof.
  destruct v; simpl; intro H; inversion H; reflexivity.
Qed.

(** A job that is built has the fields of its entry, is enabled, and has
    for [Start] and [Done] the two readings of the clock made for it,
    whatever the texts under "start" and "done". *)
Lemma buildJob_Next (env : Env) (pbID : Z) (b : json) (w w' : world)
    (pbJob : PipelineBuildJob) :
  buildJob env pbID b w = (Normal (Next pbJob), w') ->
  job_of_entry pbID b pbJob
  /\ PipelineBuildJob_Start pbJob = now env (clock w)
  /\ PipelineBuildJob_Done pbJob = now env (S (clock w))
  /\ w' = tick (tick w).
Proof.
  unfold buildJob. unfold_M. intro H.
  destruct (assert_map b) as [m|] eqn:Em; try discriminate H.
  apply assert_map_Normal in Em. simpl in H.
  destruct (assert_string (lookup "start" m)) as [startTimeS|] eqn:Es; try discriminate H.
  simpl in H.
  destruct (assert_string (lookup "done" m)) as [doneTimeS|] eqn:Ed; try discriminate H.
  simpl in H.
  destruct (Unmarshal.parameters (lookup "args" m)) as [err|ps] eqn:Ep.
  - simpl in H. discriminate H.
  - destruct (assert_float64 (lookup "id" m)) as [id|] eqn:Ei; try discriminate H.
    simpl in H.
    destruct (assert_string (lookup "status" m)) as [status|] eqn:Est; try discriminate H.
    simpl in H.
    destruct (assert_string (lookup "action_name" m)) as [name|] eqn:En; try discriminate H.
    simpl in H.
    destruct (assert_float64 (lookup "pipeline_action_id" m)) as [paID|] eqn:Epa;
      try discriminate H.
    simpl in H. inversion H; subst; clear H.
    apply assert_float64_Normal in Ei. destruct Ei as [n [Ei ->]].
    apply assert_float64_Normal in Epa. destruct Epa as [n' [Epa ->]].
    apply assert_string_Normal in Est, En.
    split; [|simpl; auto].
    exists m, n, status, name, n'. simpl. repeat split; auto.
Qed.

Lemma buildsLoop_Next (env : Env) (pbID : Z) (builds : list json) :
  forall (s s' : Stage) (w w' : world),
    buildsLoop env pbID builds s w = (Normal (Next s'), w') ->
    exists jobs,
      Forall2 (job_of_entry pbID) builds jobs
      /\ Stage_ID s' = Stage_ID s
      /\ Stage_Name s' = Stage_Name s
      /\ Stage_Status s' = Stage_Status s
      /\ Stage_Jobs s' = (Stage_Jobs s ++ List.map PipelineBuildJob_Job jobs)%list
      /\ Stage_PipelineBuildJobs s' = (Stage_PipelineBuildJobs s ++ jobs)%list.
Proof.
  induction builds as [|b rest IH]; intros s s' w w' H; simpl in H.
  - unfold ret in H. inversion H; subst. exists []. simpl.
    rewrite !app_nil_r. repeat split; auto.
  - unfold bind in H.
    destruct (buildJob env pbID b w) as [[r|r] w1] eqn:E; try discriminate H.
    destruct r as [pbJob|res1]; [|discriminate H].
    apply buildJob_Next in E. destruct E as [Hjob _].
    apply IH in H. destruct H as [jobs [HF [Hid [Hname [Hst [Hjobs Hpbj]]]]]].
    exists (pbJob :: jobs). simpl in *.
    rewrite Hjobs, Hpbj, <- !app_assoc. simpl. repeat split; auto.
Qed.

Lemma job_of_entry_enabled (pbID : Z) (builds : list json) (jobs : list PipelineBuildJob) :
  Forall2 (job_of_entry pbID) builds jobs -> Forall enabled jobs.
Proof.
  induction 1 as [|b j bs js Hj _ IH]; constructor; auto.
  destruct Hj as [m [id [status [name [paID Hj]]]]].
  unfold enabled. decompose [and] Hj. rewrite H9. reflexivity.
Qed.



(* ===================================================================== *)
(** ** The timestamps of a job *)
(* ===================================================================== *)

(** C3. The [Start] and [Done] of a built job are the two readings of the
    clock made while the entry is processed: they are the same for two
    entries processed at the same moment, whatever the entries hold under
    "start" and "done". Nothing is parsed from these texts. *)
Theorem job_times_are_clock_readings (env : Env) (pbID : Z) (b b' : json)
    (w w1 w2 : world) (pbJob pbJob' : PipelineBuildJob) :
  buildJob env pbID b w = (Normal (Next pbJob), w1) ->
  buildJob env pbID b' w = (Normal (Next pbJob'), w2) ->
  PipelineBuildJob_Start pbJob = now env (clock w)
  /\ PipelineBuildJob_Done pbJob = now env (S (clock w))
  /\ PipelineBuildJob_Start pbJob' = PipelineBuildJob_Start pbJob
  /\ PipelineBuildJob_Done pbJob' = PipelineBuildJob_Done pbJob.
Proof.
  intros H H'.
  apply buildJob_Next in H. destruct H as [_ [Hs [Hd _]]].
  apply buildJob_Next in H'. destruct H' as [_ [Hs' [Hd' _]]].
  rewrite Hs, Hd, Hs', Hd'. auto.
Qed.

Lemma job_times_are_clock_readings_witness :
  exists pbJob pbJob' w1 w2,
    buildJob Sample.quiet 42
      (Sample.job 9 "Fail" "2016-05-01T10:00:00Z" "2016-05-01T10:05:00Z")
      (Sample.store_of [] []) = (Normal (Next pbJob), w1)
    /\ buildJob Sample.quiet 42
         (Sample.job 9 "Fail" "2017-12-24T18:30:00Z" "2017-12-24T19:00:00Z")
         (Sample.store_of [] []) = (Normal (Next pbJob'), w2)
    /\ PipelineBuildJob_Start pbJob = 1000
    /\ PipelineBuildJob_Done pbJob = 1001
    /\ PipelineBuildJob_Start pbJob' = PipelineBuildJob_Start pbJob
    /\ PipelineBuildJob_Done pbJob' = PipelineBuildJob_Done pbJob.
Proof.
  exists Sample.job9_built, Sample.job9_built,
         (tick (tick (Sample.store_of [] []))), (tick (tick (Sample.store_of [] []))).
  assert (H : buildJob Sample.quiet 42
                (Sample.job 9 "Fail" "2016-05-01T10:00:00Z" "2016-05-01T10:05:00Z")
                (Sample.store_of [] [])
              = (Normal (Next Sample.job9_built), tick (tick (Sample.store_of [] []))))
    by (vm_compute; reflexivity).
  assert (H' : buildJob Sample.quiet 42
                 (Sample.job 9 "Fail" "2017-12-24T18:30:00Z" "2017-12-24T19:00:00Z")
                 (Sample.store_of [] [])
               = (Normal (Next Sample.job9_built), tick (tick (Sample.store_of [] []))))
    by (vm_compute; reflexivity).
  destruct (job_times_are_clock_readings _ _ _ _ _ _ _ _ _ H H') as [Hs [Hd [Hs' Hd']]].
  split; [exact H | split; [exact H' | split; [exact Hs | split; [exact Hd |]]]].
  split; [exact Hs' | exact Hd'].
Defined.

(* ===================================================================== *)
(** ** getPipelineBuild writes to no table *)
(* ===================================================================== *)

Lemma same_tables_refl (w : world) : same_tables w w.
Proof. split; reflexivity. Qed.

Lemma same_tables_trans (w1 w2 w3 : world) :
  same_tables w1 w2 -> same_tables w2 w3 -> same_tables w1 w3.
Proof.
  intros [H1 H2] [H3 H4]. split; congruence.
Qed.

Lemma same_tables_log (sev : severity) (msg : string) (id : Z) (w : world) :
  same_tables w (log sev msg id w).
Proof. split; reflexivity. Qed.

Lemma same_tables_tick (w : world) : same_tables w (tick w).
Proof. split; reflexivity. Qed.

Create HintDb tables.
#[local] Hint Resolve same_tables_refl same_tables_log same_tables_tick : tables.

Lemma buildJob_tables (env : Env) (pbID : Z) (b : json) (w w' : world)
    (o : outcome (flow PipelineBuildJob)) :
  buildJob env pbID b w = (o, w') -> same_tables w w'.
Proof.
  unfold buildJob. unfold_M. intro H.
  repeat (match type of H with
          | context [match ?x with _ => _ end] => destruct x
          end; simpl in H).
  all: inversion H; subst; split; reflexivity.
Qed.

Lemma buildsLoop_tables (env : Env) (pbID : Z) (builds : list json) :
  forall (s : Stage) (w w' : world) (o : outcome (flow Stage)),
    buildsLoop env pbID builds s w = (o, w') -> same_tables w w'.
Proof.
  induction builds as [|b rest IH]; intros s w w' o H; simpl in H.
  - inversion H; subst. auto with tables.
  - unfold bind in H.
    destruct (buildJob env pbID b w) as [[r|r] w1] eqn:E.
    + apply buildJob_tables in E. destruct r as [pbJob|res].
      * eapply same_tables_trans; [exact E|]. eapply IH; eauto.
      * inversion H; subst. exact E.
    + apply buildJob_tables in E. inversion H; subst. exact E.
Qed.

Lemma stageEntry_tables (env : Env) (pbID : Z) (e : json) (stages : list Stage)
    (w w' : world) (o : outcome (flow (list Stage))) :
  stageEntry env pbID e stages w = (o, w') -> same_tables w w'.
Proof.
  unfold stageEntry. unfold_M. intro H.
  destruct (assert_map e) as [m|]; simpl in H;
    [|inversion H; subst; auto with tables].
  destruct (assert_float64 (lookup "id" m)) as [f|]; simpl in H;
    [|inversion H; subst; auto with tables].
  destruct (findStageToUpdate (int64_of_float64 f) stages 0 None) as [p stages1].
  destruct p as [i|]; simpl in H; [|inversion H; subst; auto with tables].
  destruct (assert_slice (lookup "builds" m)) as [builds|]; simpl in H;
    [|inversion H; subst; auto with tables].
  destruct (buildsLoop env pbID builds (nth i stages1 Unmarshal.zero_stage) w)
    as [[r|r] w1] eqn:E; apply buildsLoop_tables in E.
  - destruct r; inversion H; subst; exact E.
  - inversion H; subst. exact E.
Qed.

Lemma stagesLoop_tables (env : Env) (pbID : Z) (entries : list json) :
  forall (stages : list Stage) (w w' : world) (o : outcome (flow (list Stage))),
    stagesLoop env pbID entries stages w = (o, w') -> same_tables w w'.
Proof.
  induction entries as [|e rest IH]; intros stages w w' o H; simpl in H.
  - inversion H; subst. auto with tables.
  - unfold bind in H.
    destruct (stageEntry env pbID e stages w) as [[r|r] w1] eqn:E;
      apply stageEntry_tables in E.
    + destruct r as [stages1|res].
      * eapply same_tables_trans; [exact E|]. eapply IH; eauto.
      * inversion H; subst. exact E.
    + inversion H; subst. exact E.
Qed.

Lemma rebuild_tables (env : Env) (pb : PipelineBuild) (data : payload) (id : Z)
    (w w' : world) (o : outcome result) :
  rebuild env pb data id w = (o, w') -> same_tables w w'.
Proof.
  unfold rebuild. unfold_M. intro H.
  destruct (Unmarshal.map data) as [err|mapPB];
    [inversion H; subst; auto with tables|].
  destruct (lookup "stages" mapPB) as [v|];
    [|inversion H; subst; auto with tables].
  destruct v as [| | | |entries|]; simpl in H;
    try (inversion H; subst; auto with tables; fail).
  destruct (stagesLoop env (PipelineBuild_ID pb) entries (PipelineBuild_Stages pb) w)
    as [[r|r] w1] eqn:E; apply stagesLoop_tables in E.
  - destruct r; inversion H; subst; exact E.
  - inversion H; subst. exact E.
Qed.

(** [getPipelineBuild] reads the two tables and writes to none, however
    it ends. *)
Lemma getPipelineBuild_tables (env : Env) (tx : Tx) (id : Z) (w w' : world)
    (o : outcome (result * Tx)) :
  getPipelineBuild env tx id w = (o, w') -> same_tables w w'.
Proof.
  unfold getPipelineBuild. intro H.
  destruct (select_data_for_update env tx id w) as [err|[data tx1]].
  { unfold_M. simpl in H. inversion H; subst. auto with tables. }
  destruct (Unmarshal.build data) as [err|pb].
  { unfold_M. simpl in H. inversion H; subst. auto with tables. }
  destruct (select_count env tx1 (PipelineBuild_ID pb) w) as [err|nb].
  { unfold_M. simpl in H. inversion H; subst. auto with tables. }
  destruct (negb (nb =? 0)).
  { unfold_M. inversion H; subst. auto with tables. }
  unfold bind, ret in H.
  destruct (rebuild env pb data id w) as [[r|r] w1] eqn:E; apply rebuild_tables in E;
    inversion H; subst; exact E.
Qed.

(* ===================================================================== *)
(** ** One candidate of the driver *)
(* ===================================================================== *)

(** A result with an error carries no build. *)
Lemma getPipelineBuild_err (env : Env) (tx tx' : Tx) (id : Z) (w w' : world) (res : result) :
  getPipelineBuild env tx id w = (Normal (res, tx'), w') ->
  res_err res <> None ->
  res_pb res = None.
Proof.
  intros H Herr. destruct (res_pb res) as [pb|] eqn:Epb; [|reflexivity].
  destruct (getPipelineBuild_pb _ _ _ _ _ _ _ _ H Epb) as [pb0 ->].
  simpl in Herr. contradiction.
Qed.

(** The driver reads [pb.ID] without looking at [errGetPB] or at [pb]:
    when [getPipelineBuild] gives no build, the candidate panics. *)
Lemma migrateCandidate_nil_pb (env : Env) (id : Z) (w w1 : world) (tx tx' : Tx)
    (res : result) :
  Begin env id = inr tx ->
  getPipelineBuild env tx id (log Notice "Pipeline History: migrating %d" id w)
    = (Normal (res, tx'), w1) ->
  res_pb res = None ->
  migrateCandidate env id w = (Panic nil_dereference, w1).
Proof.
  intros HB HG Hpb. unfold migrateCandidate. unfold bind at 1. unfold logM at 1.
  rewrite HB. unfold bind. rewrite HG. rewrite Hpb. reflexivity.
Qed.

(** A panic of one candidate ends the loop over the candidates. *)
Lemma rowsLoop_panic (env : Env) (id : Z) (rest : list Z) (w w1 : world) (reason : string) :
  migrateCandidate env id w = (Panic reason, w1) ->
  rowsLoop env (id :: rest) w = (Panic reason, w1).
Proof.
  intro H. simpl. unfold bind. rewrite H. reflexivity.
Qed.

(** C1. When [getPipelineBuild] returns an error for a candidate (the row
    is locked, the payload does not decode, the parameters of a job do
    not decode), the driver does not roll back and go on to the next
    candidate: it panics on the nil build, and the candidates after this
    one are not visited. *)
Theorem failed_candidate_aborts_the_run (env : Env) (id : Z) (rest : list Z)
    (w w1 : world) (tx tx' : Tx) (res : result) :
  Begin env id = inr tx ->
  getPipelineBuild env tx id (log Notice "Pipeline History: migrating %d" id w)
    = (Normal (res, tx'), w1) ->
  res_err res <> None ->
  rowsLoop env (id :: rest) w = (Panic nil_dereference, w1)
  /\ pipeline_build w1 = pipeline_build w.
Proof.
  intros HB HG Herr. split.
  - apply rowsLoop_panic. eapply migrateCandidate_nil_pb; eauto.
    eapply getPipelineBuild_err; eauto.
  - apply getPipelineBuild_tables in HG. destruct HG as [HG _]. exact HG.
Qed.

Lemma failed_candidate_aborts_the_run_witness :
  exists w1,
    rowsLoop Sample.quiet [43; 42] Sample.one_bad_one_good = (Panic nil_dereference, w1)
    /\ pipeline_build w1 = []
    /\ List.map log_message (logs w1) =
         ["Pipeline History: migrating %d";
          "MigratePipelineHistory>  Cannot unmarshal pipeline History %d: %s"]
    /\ MigratePipelineHistory Sample.quiet Sample.one_bad_one_good
         = (Panic nil_dereference, w1).
Proof.
  exists (log Critical "MigratePipelineHistory>  Cannot unmarshal pipeline History %d: %s" 43
            (log Notice "Pipeline History: migrating %d" 43 Sample.one_bad_one_good)).
  assert (HG : getPipelineBuild Sample.quiet Sample.no_tx 43
                 (log Notice "Pipeline History: migrating %d" 43 Sample.one_bad_one_good)
               = (Normal (nils (Some SyntaxError), {| tx_locks := [43]; tx_writes := [] |}),
                  log Critical
                    "MigratePipelineHistory>  Cannot unmarshal pipeline History %d: %s" 43
                    (log Notice "Pipeline History: migrating %d" 43 Sample.one_bad_one_good)))
    by (vm_compute; reflexivity).
  assert (Herr : res_err (nils (Some SyntaxError)) <> None) by (simpl; discriminate).
  destruct (failed_candidate_aborts_the_run Sample.quiet 43 [42] _ _ Sample.no_tx _ _
              eq_refl HG Herr) as [Hrun Htable].
  split; [exact Hrun|].
  split; [exact Htable|].
  split; [reflexivity|].
  vm_compute. reflexivity.
Defined.

Lemma count_of_existing (id : Z) (l l' : list build_row) :
  existsb (has_id id) l = true ->
  (Z.of_nat (List.length (filter (has_id id) (l ++ l'))) =? 0) = false.
Proof.
  intro H. apply Z.eqb_neq. apply existsb_exists in H. destruct H as [r [Hin Hr]].
  assert (Hin' : In r (filter (has_id id) (l ++ l'))).
  { apply filter_In. split; [apply in_or_app; left; exact Hin | exact Hr]. }
  destruct (filter (has_id id) (l ++ l')); [contradiction | simpl; lia].
Qed.

(** C2. For a candidate whose build is in the target table already,
    [getPipelineBuild] stops after the count, without rebuilding the
    stages, and returns no build and no error; the driver then reads
    [pb.ID] on the nil build and panics. The table is as it was, nothing
    is written, but the candidate is not a success that the run steps
    over: the run ends there. *)
Theorem migrated_candidate_aborts_the_run (env : Env) (id : Z) (rest : list Z)
    (w : world) (r : history_row) (pb : PipelineBuild) (tx : Tx) :
  Begin env id = inr tx ->
  find (fun r => h_pipeline_build_id r =? id) (pipeline_history_old w) = Some r ->
  locked_elsewhere env id = false ->
  Unmarshal.build (h_data r) = inr pb ->
  count_fails env (PipelineBuild_ID pb) = false ->
  existsb (has_id (PipelineBuild_ID pb)) (pipeline_build w) = true ->
  getPipelineBuild env tx id (log Notice "Pipeline History: migrating %d" id w)
    = (Normal (nils None, {| tx_locks := id :: tx_locks tx; tx_writes := tx_writes tx |}),
       log Notice "Pipeline History: migrating %d" id w)
  /\ rowsLoop env (id :: rest) w
     = (Panic nil_dereference, log Notice "Pipeline History: migrating %d" id w)
  /\ pipeline_build (log Notice "Pipeline History: migrating %d" id w) = pipeline_build w.
Proof.
  intros HB Hfind Hlock Hdec Hcount Hex.
  assert (HG : getPipelineBuild env tx id (log Notice "Pipeline History: migrating %d" id w)
               = (Normal (nils None,
                          {| tx_locks := id :: tx_locks tx; tx_writes := tx_writes tx |}),
                  log Notice "Pipeline History: migrating %d" id w)).
  { unfold getPipelineBuild, select_data_for_update. simpl pipeline_history_old.
    rewrite Hfind, Hlock, Hdec. unfold select_count. rewrite Hcount.
    simpl pipeline_build. simpl tx_writes.
    rewrite (count_of_existing _ _ _ Hex). reflexivity. }
  split; [exact HG|]. split; [|reflexivity].
  apply rowsLoop_panic. eapply migrateCandidate_nil_pb; eauto.
Qed.

Lemma migrated_candidate_aborts_the_run_witness :
  rowsLoop Sample.quiet [42; 41] Sample.one_migrated_one_new
    = (Panic nil_dereference,
       log Notice "Pipeline History: migrating %d" 42 Sample.one_migrated_one_new)
  /\ MigratePipelineHistory Sample.quiet Sample.one_migrated_one_new
     = (Panic nil_dereference,
        log Notice "Pipeline History: migrating %d" 42 Sample.one_migrated_one_new)
  /\ pipeline_build (log Notice "Pipeline History: migrating %d" 42 Sample.one_migrated_one_new)
     = [Sample.migrated 42].
Proof.
  destruct (migrated_candidate_aborts_the_run Sample.quiet 42 [41]
              Sample.one_migrated_one_new
              (Sample.row 42 3 (Some "master") (Document (Sample.doc 42)))
              (match Unmarshal.build (Document (Sample.doc 42)) with
               | inr pb => pb
               | inl _ => Unmarshal.zero_build
               end)
              Sample.no_tx eq_refl eq_refl eq_refl eq_refl eq_refl eq_refl)
    as [_ [Hrun Htable]].
  split; [exact Hrun|].
  split; [vm_compute; reflexivity | reflexivity].
Defined.

(* ===================================================================== *)
(** ** Where the INSERT runs *)
(* ===================================================================== *)

(** A statement that [db] runs leaves the transaction as it was: the
    transaction has nothing to roll back. *)
Lemma Exec_insert_OnDb_tx (env : Env) (r : build_row) (tx tx' : Tx) (w w' : world)
    (err : option error) :
  Exec_insert env OnDb r tx w = (err, tx', w') -> tx' = tx.
Proof.
  unfold Exec_insert. intro H.
  destruct (insert_fails env (row_id r) || existsb (has_id (row_id r)) (pipeline_build w));
    inversion H; reflexivity.
Qed.

(** C4. The INSERT is run by [db], outside the transaction [tx] that holds
    the lock of the candidate: the row is in the table as soon as the
    INSERT succeeds. When the commit of [tx] then fails, the code rolls
    [tx] back, and the row stays in the table. *)
Theorem insert_is_outside_the_transaction (env : Env) (id : Z) (w w1 : world)
    (tx tx' : Tx) (res : result) (pb : PipelineBuild) :
  Begin env id = inr tx ->
  getPipelineBuild env tx id (log Notice "Pipeline History: migrating %d" id w)
    = (Normal (res, tx'), w1) ->
  res_pb res = Some pb ->
  insert_fails env (PipelineBuild_ID pb) = false ->
  existsb (has_id (PipelineBuild_ID pb)) (pipeline_build w1) = false ->
  commit_fails env id = true ->
  migrateCandidate env id w
    = (Normal tt,
       Rollback tx'
         (log Critical "MigratePipelineHistory>  Cannot commit transaction: %s" 0
            (set_pipeline_build w1 (pipeline_build w1 ++ [insert_row pb res])))).
Proof.
  intros HB HG Hpb Hins Hex Hcommit.
  unfold migrateCandidate. unfold bind at 1. unfold logM at 1.
  rewrite HB. unfold bind at 1. rewrite HG. rewrite Hpb.
  unfold Exec_insert. simpl row_id. rewrite Hins, Hex. simpl.
  unfold Commit. rewrite Hcommit. reflexivity.
Qed.

Lemma insert_is_outside_the_transaction_witness :
  exists w2,
    migrateCandidate Sample.commit_42_fails 42 Sample.only_42 = (Normal tt, w2)
    /\ MigratePipelineHistory Sample.commit_42_fails Sample.only_42 = (Normal None, w2)
    /\ List.map row_id (pipeline_build w2) = [42]
    /\ List.map log_message (logs w2) =
         ["Pipeline History: migrating %d";
          "MigratePipelineHistory>  Cannot commit transaction: %s"].
Proof.
  let v := eval vm_compute in
    (getPipelineBuild Sample.commit_42_fails Sample.no_tx 42
       (log Notice "Pipeline History: migrating %d" 42 Sample.only_42)) in
  match v with
  | (Normal (?res, ?tx'), ?w1) =>
      match eval vm_compute in (res_pb res) with
      | Some ?pb =>
          assert (HG : getPipelineBuild Sample.commit_42_fails Sample.no_tx 42
                         (log Notice "Pipeline History: migrating %d" 42 Sample.only_42)
                       = (Normal (res, tx'), w1)) by (vm_compute; reflexivity);
          pose proof (insert_is_outside_the_transaction Sample.commit_42_fails 42
                        Sample.only_42 w1 Sample.no_tx tx' res pb
                        eq_refl HG eq_refl eq_refl eq_refl eq_refl) as Hrun
      end
  end.
  eexists. split; [exact Hrun|].
  split; [vm_compute; reflexivity|].
  split; reflexivity.
Defined.

(* ===================================================================== *)
(** ** A payload without stages *)
(* ===================================================================== *)

Lemma count_of_absent (id : Z) (l : list build_row) :
  existsb (has_id id) l = false ->
  (Z.of_nat (List.length (filter (has_id id) l)) =? 0) = true.
Proof.
  intro H. apply Z.eqb_eq.
  assert (Hnil : filter (has_id id) l = []).
  { induction l as [|r rest IH]; simpl in *; [reflexivity|].
    apply orb_false_iff in H. destruct H as [H1 H2]. rewrite H1. apply IH. exact H2. }
  rewrite Hnil. reflexivity.
Qed.

(** The steps of [getPipelineBuild] before "Start rebuilding stages
    struct", for a candidate whose row is free, whose payload decodes and
    whose build is not in the target table. *)
Lemma getPipelineBuild_rebuild (env : Env) (tx : Tx) (id : Z) (w : world)
    (r : history_row) (pb : PipelineBuild) :
  find (fun r => h_pipeline_build_id r =? id) (pipeline_history_old w) = Some r ->
  locked_elsewhere env id = false ->
  Unmarshal.build (h_data r) = inr pb ->
  count_fails env (PipelineBuild_ID pb) = false ->
  existsb (has_id (PipelineBuild_ID pb)) (pipeline_build w ++ tx_writes tx) = false ->
  getPipelineBuild env tx id w
    = (res <- rebuild env pb (h_data r) id ;;
       ret (res, {| tx_locks := id :: tx_locks tx; tx_writes := tx_writes tx |})) w.
Proof.
  intros Hfind Hlock Hdec Hcount Hex.
  unfold getPipelineBuild, select_data_for_update.
  rewrite Hfind, Hlock, Hdec. unfold select_count. rewrite Hcount.
  simpl tx_writes. rewrite (count_of_absent _ _ Hex). reflexivity.
Qed.




(* ===================================================================== *)
(** ** A dynamic stage that the skeleton does not have *)
(* ===================================================================== *)

Lemma stagesLoop_app (env : Env) (pbID : Z) (pre post : list json) :
  forall (stages stages1 : list Stage) (w w1 : world),
    stagesLoop env pbID pre stages w = (Normal (Next stages1), w1) ->
    stagesLoop env pbID (pre ++ post) stages w = stagesLoop env pbID post stages1 w1.
Proof.
  induction pre as [|e rest IH]; intros stages stages1 w w1 H; simpl in *.
  - unfold ret in H. inversion H; subst. reflexivity.
  - unfold bind in *.
    destruct (stageEntry env pbID e stages w) as [[r|r] w2]; try discriminate H.
    destruct r as [stages2|res]; [|discriminate H].
    eapply IH; eauto.
Qed.

Lemma stageEntry_not_found (env : Env) (pbID : Z) (m : list (string * json)) (n : Z)
    (stages : list Stage) (w : world) :
  lookup "id" m = Some (JNumber n) ->
  (forall s, In s stages -> Stage_ID s <> int64_of_float64 (float64_of_Z n)) ->
  stageEntry env pbID (JObject m) stages w
    = (Normal (Return (nils None)),
       log Critical "MigratePipelineHistory>  Cannot get stage to update %d" pbID w).
Proof.
  intros Hid Hno. unfold stageEntry. unfold_M. simpl. rewrite Hid. simpl.
  rewrite (findStageToUpdate_None _ _ Hno). reflexivity.
Qed.

(** C6, as stated, fails: for a dynamic stage entry of an id that no stage
    of the skeleton has, what is returned carries no error. The first
    input is the loop body alone; the second is a whole payload, whose
    stage id 2^53 + 1 is read exactly into the skeleton and rounded to
    2^53 in the dynamic tree. *)
Lemma unknown_stage_is_not_an_error :
  stageEntry Sample.quiet 42
    (JObject [("id", JNumber 2); ("builds", JArray [])])
    [Sample.stage1 []] (Sample.store_of [] [])
  = (Normal (Return (nils None)),
     log Critical "MigratePipelineHistory>  Cannot get stage to update %d" 42
       (Sample.store_of [] []))
  /\ res_err (nils None) = None
  /\ getPipelineBuild Sample.quiet Sample.no_tx 42
       (Sample.store_of
          [Sample.row 42 3 (Some "master") (Document (Sample.doc_wide_stage_id 42))] [])
     = (Normal (nils None, {| tx_locks := [42]; tx_writes := [] |}),
        log Critical "MigratePipelineHistory>  Cannot get stage to update %d" 42
          (Sample.store_of
             [Sample.row 42 3 (Some "master") (Document (Sample.doc_wide_stage_id 42))] [])).
Proof.
  split; [vm_compute; reflexivity|].
  split; [reflexivity|].
  vm_compute; reflexivity.
Qed.

(** C6, amended. When the loop over the dynamic stages reaches an entry
    whose id no stage of the skeleton has, it logs "Cannot get stage to
    update" at the critical severity and the function returns at once,
    with no build and with a nil error; the entries after it are not
    read. *)
Theorem unknown_stage_returns_no_error (env : Env) (pbID : Z) (pre post : list json)
    (m : list (string * json)) (n : Z) (stages stages1 : list Stage) (w w1 : world) :
  stagesLoop env pbID pre stages w = (Normal (Next stages1), w1) ->
  lookup "id" m = Some (JNumber n) ->
  (forall s, In s stages1 -> Stage_ID s <> int64_of_float64 (float64_of_Z n)) ->
  stagesLoop env pbID (pre ++ JObject m :: post) stages w
    = (Normal (Return (nils None)),
       log Critical "MigratePipelineHistory>  Cannot get stage to update %d" pbID w1)
  /\ res_pb (nils None) = None
  /\ res_err (nils None) = None.
Proof.
  intros Hpre Hid Hno.
  split; [|split; reflexivity].
  rewrite (stagesLoop_app _ _ _ _ _ _ _ _ Hpre). simpl. unfold bind.
  rewrite (stageEntry_not_found _ _ _ _ _ _ Hid Hno). reflexivity.
Qed.

Lemma unknown_stage_returns_no_error_witness :
  stagesLoop Sample.quiet 42
    ([Sample.stage1_entry]
     ++ JObject [("id", JNumber 2); ("builds", JArray [])] :: [Sample.stage1_entry])
    [Sample.stage1 []] (Sample.store_of [] [])
  = (Normal (Return (nils None)),
     log Critical "MigratePipelineHistory>  Cannot get stage to update %d" 42
       (tick (tick (Sample.store_of [] [])))).
Proof.
  assert (Hpre : stagesLoop Sample.quiet 42 [Sample.stage1_entry] [Sample.stage1 []]
                   (Sample.store_of [] [])
                 = (Normal (Next [Sample.stage1 [Sample.job9_built]]),
                    tick (tick (Sample.store_of [] [])))) by (vm_compute; reflexivity).
  assert (Hno : forall s, In s [Sample.stage1 [Sample.job9_built]] ->
                          Stage_ID s <> int64_of_float64 (float64_of_Z 2)).
  { intros s [<-|[]]. vm_compute. discriminate. }
  exact (proj1 (unknown_stage_returns_no_error Sample.quiet 42 [Sample.stage1_entry]
                  [Sample.stage1_entry] [("id", JNumber 2); ("builds", JArray [])] 2
                  _ _ _ _ Hpre eq_refl Hno)).
Defined.

(* ===================================================================== *)
(** ** When the decoding fails *)
(* ===================================================================== *)

Lemma lookup_remove_key_same (k : string) (m : list (string * json)) :
  lookup k (remove_key k m) = None.
Proof.
  induction m as [|[k' v] rest IH]; simpl; [reflexivity|].
  destruct (String.eqb k k') eqn:E; [exact IH|]. simpl. rewrite E. exact IH.
Qed.

Lemma lookup_remove_key_other (k k' : string) (m : list (string * json)) :
  k <> k' -> lookup k (remove_key k' m) = lookup k m.
Proof.
  intro Hne. induction m as [|[k0 v] rest IH]; simpl; [reflexivity|].
  destruct (String.eqb k' k0) eqn:E.
  - apply String.eqb_eq in E. subst k0.
    apply String.eqb_neq in Hne. rewrite Hne. exact IH.
  - simpl. rewrite IH. reflexivity.
Qed.

Lemma lookup_without_identity (k : string) (o : list (string * json)) :
  k <> "id" -> k <> "pipeline" -> lookup k (without_identity o) = lookup k o.
Proof.
  intros H1 H2. unfold without_identity.
  rewrite lookup_remove_key_other by exact H1.
  apply lookup_remove_key_other. exact H2.
Qed.

Lemma lookup_without_identity_id (o : list (string * json)) :
  lookup "id" (without_identity o) = None.
Proof. apply lookup_remove_key_same. Qed.

Lemma lookup_without_identity_pipeline (o : list (string * json)) :
  lookup "pipeline" (without_identity o) = None.
Proof.
  unfold without_identity. rewrite lookup_remove_key_other by discriminate.
  apply lookup_remove_key_same.
Qed.

Lemma build_fields_without_identity (o : list (string * json)) (pb : PipelineBuild) :
  Unmarshal.build_fields o = inr pb ->
  Unmarshal.build_fields (without_identity o) = inr (set_identity pb 0 0).
Proof.
  intro H. unfold Unmarshal.build_fields in *.
  assert (E1 : Unmarshal.int64_field "id" (without_identity o) = inr 0)
    by (unfold Unmarshal.int64_field; now rewrite lookup_without_identity_id).
  assert (E2 : Unmarshal.ref_field "pipeline" (without_identity o) = inr 0)
    by (unfold Unmarshal.ref_field; now rewrite lookup_without_identity_pipeline).
  assert (E3 : forall k, k <> "id" -> k <> "pipeline" ->
               Unmarshal.ref_field k (without_identity o) = Unmarshal.ref_field k o)
    by (intros; unfold Unmarshal.ref_field; now rewrite lookup_without_identity).
  assert (E4 : forall k, k <> "id" -> k <> "pipeline" ->
               Unmarshal.int64_field k (without_identity o) = Unmarshal.int64_field k o)
    by (intros; unfold Unmarshal.int64_field; now rewrite lookup_without_identity).
  assert (E5 : forall k, k <> "id" -> k <> "pipeline" ->
               Unmarshal.string_field k (without_identity o) = Unmarshal.string_field k o)
    by (intros; unfold Unmarshal.string_field; now rewrite lookup_without_identity).
  assert (E6 : forall A (f : json -> error + A) k, k <> "id" -> k <> "pipeline" ->
               Unmarshal.slice_field f k (without_identity o) = Unmarshal.slice_field f k o)
    by (intros; unfold Unmarshal.slice_field; now rewrite lookup_without_identity).
  assert (E7 : Unmarshal.trigger_field (without_identity o) = Unmarshal.trigger_field o)
    by (unfold Unmarshal.trigger_field; now rewrite lookup_without_identity by discriminate).
  assert (E8 : forall k, k <> "id" -> k <> "pipeline" ->
               Unmarshal.ptr_field k (without_identity o) = Unmarshal.ptr_field k o)
    by (intros; unfold Unmarshal.ptr_field; now rewrite lookup_without_identity).
  rewrite E1, E2, E7.
  rewrite !E3, !E4, !E5, !E6, !E8 by discriminate.
  destruct (Unmarshal.int64_field "id" o); [discriminate H|].
  destruct (Unmarshal.ref_field "pipeline" o); [discriminate H|].
  destruct (Unmarshal.ref_field "application" o); [discriminate H|].
  destruct (Unmarshal.ref_field "environment" o); [discriminate H|].
  destruct (Unmarshal.int64_field "build_number" o); [discriminate H|].
  destruct (Unmarshal.int64_field "version" o); [discriminate H|].
  destruct (Unmarshal.string_field "status" o); [discriminate H|].
  destruct (Unmarshal.slice_field Unmarshal.parameter "parameters" o); [discriminate H|].
  destruct (Unmarshal.trigger_field o); [discriminate H|].
  destruct (Unmarshal.ptr_field "previous_pipeline_build" o); [discriminate H|].
  destruct (Unmarshal.slice_field Unmarshal.stage "stages" o); [discriminate H|].
  inversion H; subst. reflexivity.
Qed.




(* ===================================================================== *)
(** ** The candidates of a group *)
(* ===================================================================== *)

Section OrderBy.
Variable A : Type.
Variable leb : A -> A -> bool.
Hypothesis leb_total : forall a b, leb a b = true \/ leb b a = true.
Hypothesis leb_trans : forall a b c, leb a b = true -> leb b c = true -> leb a c = true.

Let R (a b : A) : Prop := leb a b = true.

Lemma insert_sorted_Permutation (x : A) (l : list A) :
  Permutation (insert_sorted leb x l) (x :: l).
Proof.
  induction l as [|y rest IH]; simpl.
  - apply Permutation_refl.
  - destruct (leb y x).
    + eapply perm_trans; [apply perm_skip; exact IH | apply perm_swap].
    + apply Permutation_refl.
Qed.

Lemma fold_insert_Permutation (l acc : list A) :
  Permutation (fold_left (fun acc x => insert_sorted leb x acc) l acc) (l ++ acc).
Proof.
  revert acc. induction l as [|x rest IH]; intro acc; simpl.
  - apply Permutation_refl.
  - eapply perm_trans; [apply IH|].
    eapply perm_trans; [apply Permutation_app_head; apply insert_sorted_Permutation|].
    apply Permutation_sym. apply Permutation_middle.
Qed.

Lemma order_by_Permutation (l : list A) : Permutation (order_by leb l) l.
Proof.
  unfold order_by. eapply perm_trans; [apply fold_insert_Permutation|].
  rewrite app_nil_r. apply Permutation_refl.
Qed.

Lemma insert_sorted_StronglySorted (x : A) (l : list A) :
  StronglySorted R l -> StronglySorted R (insert_sorted leb x l).
Proof.
  induction 1 as [|y rest Hs IH Hall]; simpl.
  - constructor; constructor.
  - destruct (leb y x) eqn:E.
    + constructor; [exact IH|].
      apply Forall_forall. intros z Hz.
      apply (Permutation_in _ (insert_sorted_Permutation x rest)) in Hz.
      destruct Hz as [<-|Hz]; [exact E|].
      rewrite Forall_forall in Hall. apply Hall. exact Hz.
    + assert (Hxy : R x y) by (destruct (leb_total x y) as [H|H]; [exact H | congruence]).
      constructor; [constructor; assumption|].
      constructor; [exact Hxy|].
      apply Forall_forall. intros z Hz. rewrite Forall_forall in Hall.
      eapply leb_trans; [exact Hxy | apply Hall; exact Hz].
Qed.

Lemma fold_insert_StronglySorted (l acc : list A) :
  StronglySorted R acc ->
  StronglySorted R (fold_left (fun acc x => insert_sorted leb x acc) l acc).
Proof.
  revert acc. induction l as [|x rest IH]; intros acc H; simpl.
  - exact H.
  - apply IH. apply insert_sorted_StronglySorted. exact H.
Qed.

Lemma order_by_StronglySorted (l : list A) : StronglySorted R (order_by leb l).
Proof.
  unfold order_by. apply fold_insert_StronglySorted. constructor.
Qed.

(** In a sorted list, what a LIMIT keeps is before what it drops. *)
Lemma firstn_before_skipn (n : nat) (l : list A) :
  StronglySorted R l ->
  forall a b, In a (firstn n l) -> In b (skipn n l) -> leb a b = true.
Proof.
  revert n. induction l as [|x rest IH]; intros n Hs a b Ha Hb.
  - destruct n; simpl in Ha; contradiction.
  - destruct n as [|n]; simpl in Ha, Hb; [contradiction|].
    inversion Hs as [|? ? Hs' Hall]; subst.
    destruct Ha as [<-|Ha].
    + rewrite Forall_forall in Hall. apply Hall.
      rewrite <- (firstn_skipn n rest). apply in_or_app. right. exact Hb.
    + eapply IH; eauto.
Qed.

End OrderBy.

Lemma version_desc_total (a b : history_row) :
  version_desc a b = true \/ version_desc b a = true.
Proof. unfold version_desc. lia. Qed.

Lemma version_desc_trans (a b c : history_row) :
  version_desc a b = true -> version_desc b c = true -> version_desc a c = true.
Proof. unfold version_desc. lia. Qed.

(** X19. What the query of the candidates returns, in terms of the rows
    that its WHERE clause accepts: when they are more than 10, the ids of 10 of
    them, by decreasing version, and no row left out has a version above
    one of these. *)
Lemma candidates_are_the_top_ten (g : group) (w : world) :
  (10 < List.length (filter (criteria g) (pipeline_history_old w)))%nat ->
  exists selected others,
    Permutation (selected ++ others) (filter (criteria g) (pipeline_history_old w))
    /\ List.length selected = 10%nat
    /\ querySelectByCriteria g w = List.map h_pipeline_build_id selected
    /\ StronglySorted (fun a b => h_version b <= h_version a) selected
    /\ (forall a b, In a selected -> In b others -> h_version b <= h_version a).
Proof.
  intro Hlen.
  set (rows := filter (criteria g) (pipeline_history_old w)) in *.
  set (sorted := order_by version_desc rows).
  assert (Hperm : Permutation sorted rows) by apply order_by_Permutation.
  assert (Hsorted : StronglySorted (fun a b => version_desc a b = true) sorted)
    by (apply order_by_StronglySorted;
        [apply version_desc_total | apply version_desc_trans]).
  exists (firstn 10 sorted), (skipn 10 sorted).
  split; [rewrite firstn_skipn; exact Hperm|].
  split.
  { rewrite length_firstn. rewrite (Permutation_length Hperm). lia. }
  split; [reflexivity|].
  split.
  - assert (Hall : forall l, StronglySorted (fun a b => version_desc a b = true) l ->
                             StronglySorted (fun a b => h_version b <= h_version a) l).
    { induction 1 as [|x l Hs IH Hx]; constructor; auto.
      eapply Forall_impl; [|exact Hx]. intros y Hy. unfold version_desc in Hy. lia. }
    apply Hall.
    rewrite <- (firstn_skipn 10 sorted) in Hsorted.
    clear - Hsorted. induction (firstn 10 sorted) as [|x l IH]; [constructor|].
    simpl in Hsorted. inversion Hsorted as [|? ? Hs Hx]; subst.
    constructor; [apply IH; exact Hs|].
    apply Forall_app in Hx. tauto.
  - intros a b Ha Hb.
    pose proof (firstn_before_skipn _ _ 10 sorted Hsorted a b Ha Hb) as H.
    unfold version_desc in H. lia.
Qed.

(** The comparison with a NULL argument accepts no row. *)
Lemma criteria_null_branch (g : group) (r : history_row) :
  g_branchName g = None -> criteria g r = false.
Proof.
  intro H. unfold criteria, sql_eq_text. rewrite H.
  destruct (h_vcs_changes_branch r); apply andb_false_r.
Qed.

(** C9. For a group whose branch is NULL the query of the candidates
    compares the column with NULL by [=], which no row satisfies: no
    candidate is selected, however many records the group has, and the
    group is not migrated. *)
Theorem null_branch_group_has_no_candidate (env : Env) (g : group) (w : world) :
  g_branchName g = None ->
  criteria_fails env (g_appID g) (g_pipID g) (g_envID g) (g_branchName g) = false ->
  querySelectByCriteria g w = []
  /\ migrateGroup env g w = (Normal tt, w).
Proof.
  intros Hnull Hq.
  assert (Hsel : querySelectByCriteria g w = []).
  { unfold querySelectByCriteria.
    assert (Hf : filter (criteria g) (pipeline_history_old w) = []).
    { induction (pipeline_history_old w) as [|r rest IH]; simpl; [reflexivity|].
      rewrite (criteria_null_branch g r Hnull). exact IH. }
    rewrite Hf. reflexivity. }
  split; [exact Hsel|].
  unfold migrateGroup. rewrite Hq, Hsel. reflexivity.
Qed.

Lemma null_branch_group_has_no_candidate_witness :
  queryDistinct (Sample.eleven None) = [Sample.group_1_7_1 None]
  /\ List.length (pipeline_history_old (Sample.eleven None)) = 11%nat
  /\ querySelectByCriteria (Sample.group_1_7_1 None) (Sample.eleven None) = []
  /\ MigratePipelineHistory Sample.quiet (Sample.eleven None)
     = (Normal None, Sample.eleven None)
  /\ querySelectByCriteria (Sample.group_1_7_1 (Some "master"))
       (Sample.eleven (Some "master"))
     = [111; 110; 109; 108; 107; 106; 105; 104; 103; 102].
Proof.
  destruct (null_branch_group_has_no_candidate Sample.quiet (Sample.group_1_7_1 None)
              (Sample.eleven None) eq_refl eq_refl) as [Hsel Hgroup].
  split; [vm_compute; reflexivity|].
  split; [reflexivity|].
  split; [exact Hsel|].
  split; vm_compute; reflexivity.
Defined.

(* ===================================================================== *)
(** ** What a run does to the two tables *)
(* ===================================================================== *)

(** From [w] to [w'] the legacy table is the same and the target table
    has kept its rows, in their order, with [added] behind them. *)
Definition grows_by (added : list build_row) (w w' : world) : Prop :=
  pipeline_history_old w' = pipeline_history_old w
  /\ pipeline_build w' = (pipeline_build w ++ added)%list.

(** The ids of the added rows are new and differ from one another. *)
Definition fresh_ids (added : list build_row) (w : world) : Prop :=
  NoDup (List.map row_id added)
  /\ forall r, In r added -> existsb (has_id (row_id r)) (pipeline_build w) = false.

Lemma same_tables_grows (w w' : world) : same_tables w w' -> grows_by [] w w'.
Proof.
  intros [H1 H2]. split; [exact H2 | rewrite app_nil_r; exact H1].
Qed.

Lemma grows_by_trans (a1 a2 : list build_row) (w1 w2 w3 : world) :
  grows_by a1 w1 w2 -> grows_by a2 w2 w3 -> grows_by (a1 ++ a2) w1 w3.
Proof.
  intros [H1 H2] [H3 H4]. split; [congruence|].
  rewrite H4, H2, app_assoc. reflexivity.
Qed.

Lemma existsb_has_id_false (id : Z) (l : list build_row) :
  existsb (has_id id) l = false <-> ~ In id (List.map row_id l).
Proof.
  induction l as [|r rest IH]; simpl.
  - split; [intros _ [] | reflexivity].
  - unfold has_id at 1. rewrite orb_false_iff, IH, Z.eqb_neq. tauto.
Qed.

Lemma fresh_ids_nil (w : world) : fresh_ids [] w.
Proof. split; [constructor | intros r []]. Qed.

Lemma fresh_ids_trans (a1 a2 : list build_row) (w1 w2 : world) :
  grows_by a1 w1 w2 -> fresh_ids a1 w1 -> fresh_ids a2 w2 -> fresh_ids (a1 ++ a2) w1.
Proof.
  intros [_ Hg] [Hn1 Hf1] [Hn2 Hf2]. split.
  - rewrite map_app. apply NoDup_app; [exact Hn1 | exact Hn2 |].
    intros id Hin1 Hin2. apply in_map_iff in Hin2. destruct Hin2 as [r [<- Hr]].
    specialize (Hf2 r Hr). rewrite Hg in Hf2.
    apply existsb_has_id_false in Hf2. apply Hf2. rewrite map_app.
    apply in_or_app. right. exact Hin1.
  - intros r Hin. apply in_app_or in Hin. destruct Hin as [Hin|Hin]; [auto|].
    specialize (Hf2 r Hin). rewrite Hg in Hf2.
    apply existsb_has_id_false in Hf2. apply existsb_has_id_false.
    intro Hc. apply Hf2. rewrite map_app. apply in_or_app. left. exact Hc.
Qed.

(** [getPipelineBuild] writes nothing in its transaction. *)
Lemma getPipelineBuild_tx_writes (env : Env) (tx tx' : Tx) (id : Z) (w w' : world)
    (res : result) :
  getPipelineBuild env tx id w = (Normal (res, tx'), w') -> tx_writes tx' = tx_writes tx.
Proof.
  unfold getPipelineBuild, select_data_for_update. intro H.
  destruct (find (fun r => h_pipeline_build_id r =? id) (pipeline_history_old w)) as [r|].
  2:{ unfold_M. simpl in H. inversion H; reflexivity. }
  destruct (locked_elsewhere env id).
  { unfold_M. simpl in H. inversion H; reflexivity. }
  destruct (Unmarshal.build (h_data r)) as [err|pb].
  { unfold_M. simpl in H. inversion H; reflexivity. }
  match type of H with
  | context [select_count ?e ?t ?i ?x] => destruct (select_count e t i x) as [err|nb]
  end.
  { unfold_M. simpl in H. inversion H; reflexivity. }
  destruct (negb (nb =? 0)).
  { unfold_M. inversion H; reflexivity. }
  unfold bind, ret in H.
  destruct (rebuild env pb (h_data r) id w) as [[r0|r0] w1]; inversion H; reflexivity.
Qed.

Lemma Begin_tx_writes (env : Env) (id : Z) (tx : Tx) :
  Begin env id = inr tx -> tx_writes tx = [].
Proof.
  unfold Begin. destruct (begin_fails env id); intro H; inversion H; reflexivity.
Qed.

(** One candidate adds at most one row, of a new id, and only by the
    INSERT. *)
Lemma migrateCandidate_grows (env : Env) (id : Z) (w w' : world) (o : outcome unit) :
  migrateCandidate env id w = (o, w') ->
  exists added, grows_by added w w' /\ fresh_ids added w /\ (List.length added <= 1)%nat.
Proof.
  unfold migrateCandidate. unfold bind at 1. unfold logM at 1. intro H.
  assert (Hnone : forall w1, same_tables w w1 ->
            exists added, grows_by added w w1 /\ fresh_ids added w
                          /\ (List.length added <= 1)%nat).
  { intros w1 Hs. exists []. split; [apply same_tables_grows; exact Hs|].
    split; [apply fresh_ids_nil | simpl; lia]. }
  destruct (Begin env id) as [e|tx] eqn:EB.
  { unfold logM in H. inversion H; subst. apply Hnone. split; reflexivity. }
  unfold bind in H.
  destruct (getPipelineBuild env tx id (log Notice "Pipeline History: migrating %d" id w))
    as [[[res tx']|reason] w1] eqn:EG.
  2:{ apply getPipelineBuild_tables in EG. inversion H; subst. apply Hnone.
      destruct EG; split; assumption. }
  pose proof (getPipelineBuild_tx_writes _ _ _ _ _ _ _ EG) as Htx.
  rewrite (Begin_tx_writes _ _ _ EB) in Htx.
  apply getPipelineBuild_tables in EG. destruct EG as [EG1 EG2]. simpl in EG1, EG2.
  destruct (res_pb res) as [pb|].
  2:{ unfold lift in H. inversion H; subst. apply Hnone. split; assumption. }
  unfold Exec_insert in H.
  destruct (insert_fails env (row_id (insert_row pb res))
            || existsb (has_id (row_id (insert_row pb res))) (pipeline_build w1)) eqn:EI.
  { unfold bind, logM, Rollback in H. inversion H; subst. apply Hnone. split; assumption. }
  apply orb_false_iff in EI. destruct EI as [_ EI]. rewrite EG1 in EI.
  exists [insert_row pb res].
  assert (Hfresh : fresh_ids [insert_row pb res] w).
  { split.
    - simpl. constructor; [intros [] | constructor].
    - intros r [<-|[]]. exact EI. }
  split; [|split; [exact Hfresh | simpl; lia]].
  unfold Commit in H. rewrite Htx in H.
  destruct (commit_fails env id).
  - unfold bind, logM, Rollback in H. inversion H; subst. split; simpl; congruence.
  - unfold logM in H. inversion H; subst. split; simpl; [congruence|].
    rewrite app_nil_r. congruence.
Qed.

Lemma rowsLoop_grows (env : Env) (ids : list Z) :
  forall (w w' : world) (o : outcome unit),
    rowsLoop env ids w = (o, w') ->
    exists added, grows_by added w w' /\ fresh_ids added w
                  /\ (List.length added <= List.length ids)%nat.
Proof.
  induction ids as [|id rest IH]; intros w w' o H; simpl in H.
  - inversion H; subst. exists []. split; [apply same_tables_grows; split; reflexivity|].
    split; [apply fresh_ids_nil | simpl; lia].
  - unfold bind in H. destruct (migrateCandidate env id w) as [[[]|reason] w1] eqn:EC;
      apply migrateCandidate_grows in EC; destruct EC as [a1 [Hg1 [Hf1 Hl1]]].
    + apply IH in H. destruct H as [a2 [Hg2 [Hf2 Hl2]]].
      exists (a1 ++ a2)%list. split; [eapply grows_by_trans; eauto|].
      split; [eapply fresh_ids_trans; eauto|]. rewrite length_app. simpl. lia.
    + inversion H; subst. exists a1. split; [exact Hg1|]. split; [exact Hf1|]. simpl. lia.
Qed.

Lemma groupsLoop_grows (env : Env) (groups : list group) :
  forall (w w' : world) (o : outcome unit),
    groupsLoop env groups w = (o, w') ->
    exists added, grows_by added w w' /\ fresh_ids added w
                  /\ (List.length added <= 10 * List.length groups)%nat.
Proof.
  induction groups as [|g rest IH]; intros w w' o H; simpl in H.
  - inversion H; subst. exists []. split; [apply same_tables_grows; split; reflexivity|].
    split; [apply fresh_ids_nil | simpl; lia].
  - unfold bind in H.
    assert (Hg : forall o1 w1, migrateGroup env g w = (o1, w1) ->
              exists added, grows_by added w w1 /\ fresh_ids added w
                            /\ (List.length added <= 10)%nat).
    { intros o1 w1 Hm. unfold migrateGroup in Hm.
      destruct (criteria_fails env (g_appID g) (g_pipID g) (g_envID g) (g_branchName g)).
      - unfold logM in Hm. inversion Hm; subst. exists [].
        split; [apply same_tables_grows; split; reflexivity|].
        split; [apply fresh_ids_nil | simpl; lia].
      - apply rowsLoop_grows in Hm. destruct Hm as [a [Ha [Hf Hl]]].
        exists a. split; [exact Ha|]. split; [exact Hf|].
        unfold querySelectByCriteria in Hl. rewrite length_map, length_firstn in Hl. lia. }
    destruct (migrateGroup env g w) as [[[]|reason] w1] eqn:EM;
      destruct (Hg _ _ eq_refl) as [a1 [Hg1 [Hf1 Hl1]]].
    + apply IH in H. destruct H as [a2 [Hg2 [Hf2 Hl2]]].
      exists (a1 ++ a2)%list. split; [eapply grows_by_trans; eauto|].
      split; [eapply fresh_ids_trans; eauto|]. rewrite length_app. simpl. lia.
    + inversion H; subst. exists a1. split; [exact Hg1|]. split; [exact Hf1|]. simpl. lia.
Qed.

(** X1. Whatever the faults and however the run ends (a returned error, a
    normal end or a panic), the legacy table is left as it was and the
    rows that the target table had are all kept, in their order: the run
    only appends, at most 10 rows per group. *)
Theorem run_only_appends (env : Env) (w : world) :
  exists added,
    pipeline_history_old (snd (MigratePipelineHistory env w)) = pipeline_history_old w
    /\ pipeline_build (snd (MigratePipelineHistory env w))
       = (pipeline_build w ++ added)%list
    /\ (List.length added <= 10 * List.length (queryDistinct w))%nat.
Proof.
  unfold MigratePipelineHistory. destruct (distinct_fails env).
  - exists []. unfold_M. simpl. rewrite app_nil_r. repeat split. lia.
  - unfold bind.
    destruct (groupsLoop env (queryDistinct w) w) as [o w1] eqn:EL.
    apply groupsLoop_grows in EL. destruct EL as [added [[H1 H2] [_ Hl]]].
    exists added. destruct o; simpl; auto.
Qed.

(** X2. A run never adds a row whose id is in the target table already,
    and never adds two rows of one id: when the ids of the table are
    pairwise distinct before the run, they are so after it. *)
Theorem run_keeps_ids_distinct (env : Env) (w : world) :
  NoDup (List.map row_id (pipeline_build w)) ->
  NoDup (List.map row_id (pipeline_build (snd (MigratePipelineHistory env w)))).
Proof.
  intro Hnd. unfold MigratePipelineHistory. destruct (distinct_fails env).
  - unfold_M. simpl. exact Hnd.
  - unfold bind.
    destruct (groupsLoop env (queryDistinct w) w) as [o w1] eqn:EL.
    apply groupsLoop_grows in EL. destruct EL as [added [[_ H2] [[Hn Hf] _]]].
    assert (Hgoal : NoDup (List.map row_id (pipeline_build w1))).
    { rewrite H2, map_app. apply NoDup_app; [exact Hnd | exact Hn |].
      intros id Hin1 Hin2. apply in_map_iff in Hin2. destruct Hin2 as [r [<- Hr]].
      specialize (Hf r Hr). apply existsb_has_id_false in Hf. contradiction. }
    destruct o; simpl; exact Hgoal.
Qed.

Lemma run_keeps_ids_distinct_witness :
  NoDup (List.map row_id (pipeline_build Sample.two_new))
  /\ List.map row_id (pipeline_build (snd (MigratePipelineHistory Sample.quiet Sample.two_new)))
     = [42; 41]
  /\ NoDup (List.map row_id
              (pipeline_build (snd (MigratePipelineHistory Sample.quiet Sample.two_new)))).
Proof.
  assert (H : NoDup (List.map row_id (pipeline_build Sample.two_new))) by constructor.
  split; [exact H|]. split; [vm_compute; reflexivity|].
  exact (run_keeps_ids_distinct Sample.quiet Sample.two_new H).
Defined.

(* ===================================================================== *)
(** ** A candidate that is migrated, a candidate that is refused *)
(* ===================================================================== *)

(** The results of [getPipelineBuild] agree with one another: with a
    build come no error, the parameters of the build as [args], its
    stages as [stagesJSONByte], and the ids behind its two pointers. *)
Lemma getPipelineBuild_results (env : Env) (tx tx' : Tx) (id : Z) (w w' : world)
    (res : result) (pb : PipelineBuild) :
  getPipelineBuild env tx id w = (Normal (res, tx'), w') ->
  res_pb res = Some pb ->
  res_err res = None
  /\ res_args res = Some (PipelineBuild_Parameters pb)
  /\ res_stagesJSONByte res = Some (PipelineBuild_Stages pb)
  /\ res_parentID res = PipelineBuild_PreviousPipelineBuild pb
  /\ res_userID res = PipelineBuild_TriggeredBy pb.
Proof.
  intros H Hpb. destruct (getPipelineBuild_pb _ _ _ _ _ _ _ _ H Hpb) as [pb0 ->].
  simpl in Hpb. inversion Hpb; subst. simpl. repeat split; reflexivity.
Qed.

(** X3. When [getPipelineBuild] gives a build, the INSERT is accepted and
    the commit succeeds, the candidate adds one row to the target table:
    its id is the id of the build (the "id" of the payload, not the id of
    the candidate), its stages are the stages of the build and its
    parameters the parameters of the build. "end migrating" is logged and
    the loop goes on with the next candidate. *)
Theorem migrated_candidate_adds_its_row (env : Env) (id : Z) (rest : list Z)
    (w w1 : world) (tx tx' : Tx) (res : result) (pb : PipelineBuild) :
  Begin env id = inr tx ->
  getPipelineBuild env tx id (log Notice "Pipeline History: migrating %d" id w)
    = (Normal (res, tx'), w1) ->
  res_pb res = Some pb ->
  insert_fails env (PipelineBuild_ID pb) = false ->
  commit_fails env id = false ->
  exists r,
    row_id r = PipelineBuild_ID pb
    /\ row_stages r = Some (PipelineBuild_Stages pb)
    /\ row_args r = Some (PipelineBuild_Parameters pb)
    /\ rowsLoop env (id :: rest) w
       = rowsLoop env rest
           (log Notice "Pipeline History: end migrating %d" id
              (set_pipeline_build w1 (pipeline_build w ++ [r]))).
Proof.
  intros HB HG Hpb Hins Hcommit.
  destruct (getPipelineBuild_results _ _ _ _ _ _ _ _ HG Hpb) as [_ [Hargs [Hst _]]].
  exists (insert_row pb res). simpl. split; [reflexivity|].
  split; [exact Hst|]. split; [exact Hargs|].
  pose proof (getPipelineBuild_tx_writes _ _ _ _ _ _ _ HG) as Htx.
  rewrite (Begin_tx_writes _ _ _ HB) in Htx.
  (* the build was returned: the count found no row of that id *)
  assert (Hcount : existsb (has_id (PipelineBuild_ID pb)) (pipeline_build w1) = false).
  { pose proof (getPipelineBuild_tables _ _ _ _ _ _ HG) as [Ht _]. simpl in Ht.
    rewrite Ht. clear - HG Hpb HB.
    unfold getPipelineBuild, select_data_for_update in HG. simpl pipeline_history_old in HG.
    destruct (find (fun r => h_pipeline_build_id r =? id) (pipeline_history_old w)) as [r|].
    2:{ unfold_M. simpl in HG. inversion HG; subst. discriminate Hpb. }
    destruct (locked_elsewhere env id).
    { unfold_M. simpl in HG. inversion HG; subst. discriminate Hpb. }
    destruct (Unmarshal.build (h_data r)) as [err|pb0].
    { unfold_M. simpl in HG. inversion HG; subst. discriminate Hpb. }
    unfold select_count in HG.
    destruct (count_fails env (PipelineBuild_ID pb0)).
    { unfold_M. simpl in HG. inversion HG; subst. discriminate Hpb. }
    simpl tx_writes in HG. simpl pipeline_build in HG.
    rewrite (Begin_tx_writes _ _ _ HB), app_nil_r in HG.
    destruct (Z.of_nat (List.length (filter (has_id (PipelineBuild_ID pb0))
                                       (pipeline_build w))) =? 0) eqn:E0.
    2:{ unfold_M. simpl in HG. inversion HG; subst. discriminate Hpb. }
    simpl in HG. unfold bind, ret in HG.
    destruct (rebuild env pb0 (h_data r) id (log Notice "Pipeline History: migrating %d" id w))
      as [[r0|r0] w2] eqn:ER; [|discriminate HG].
    inversion HG; subst r0 tx' w2.
    destruct (rebuild_pb _ _ _ _ _ _ _ _ ER Hpb) as [stages ->].
    simpl in Hpb. inversion Hpb; subst pb. simpl.
    apply Z.eqb_eq in E0.
    destruct (existsb (has_id (PipelineBuild_ID pb0)) (pipeline_build w)) eqn:Ex;
      [|reflexivity].
    apply (count_of_existing _ _ []) in Ex. rewrite app_nil_r in Ex.
    apply Z.eqb_neq in Ex. contradiction. }
  simpl rowsLoop. unfold bind at 1.
  unfold migrateCandidate. unfold bind at 1. unfold logM at 1.
  rewrite HB. unfold bind at 1. rewrite HG. rewrite Hpb.
  unfold Exec_insert. simpl row_id. rewrite Hins, Hcount. simpl.
  unfold Commit. rewrite Hcommit, Htx. unfold logM. simpl.
  pose proof (getPipelineBuild_tables _ _ _ _ _ _ HG) as [Ht _]. simpl in Ht.
  rewrite Ht, app_nil_r. reflexivity.
Qed.

Lemma migrated_candidate_adds_its_row_witness :
  exists r w2,
    row_id r = 42
    /\ List.map Stage_ID (match row_stages r with Some l => l | None => [] end) = [1]
    /\ rowsLoop Sample.quiet [42; 41] Sample.two_new = rowsLoop Sample.quiet [41] w2
    /\ pipeline_build w2 = [r].
Proof.
  let v := eval vm_compute in
    (getPipelineBuild Sample.quiet Sample.no_tx 42
       (log Notice "Pipeline History: migrating %d" 42 Sample.two_new)) in
  match v with
  | (Normal (?res, ?tx'), ?w1) =>
      match eval vm_compute in (res_pb res) with
      | Some ?pb =>
          assert (HG : getPipelineBuild Sample.quiet Sample.no_tx 42
                         (log Notice "Pipeline History: migrating %d" 42 Sample.two_new)
                       = (Normal (res, tx'), w1)) by (vm_compute; reflexivity);
          destruct (migrated_candidate_adds_its_row Sample.quiet 42 [41]
                      Sample.two_new w1 Sample.no_tx tx' res pb
                      eq_refl HG eq_refl eq_refl eq_refl)
            as [r [Hid [Hst [Hargs Hrun]]]]
      end
  end.
  eexists. eexists. split; [exact Hid|].
  split; [rewrite Hst; reflexivity|].
  split; [exact Hrun | reflexivity].
Defined.

(** X4. When [getPipelineBuild] gives a build and the INSERT is refused,
    the failure is logged at the critical severity, the transaction is
    rolled back, no row is added, and the loop goes on with the next
    candidate. *)
Theorem refused_insert_skips_the_candidate (env : Env) (id : Z) (rest : list Z)
    (w w1 : world) (tx tx' : Tx) (res : result) (pb : PipelineBuild) :
  Begin env id = inr tx ->
  getPipelineBuild env tx id (log Notice "Pipeline History: migrating %d" id w)
    = (Normal (res, tx'), w1) ->
  res_pb res = Some pb ->
  insert_fails env (PipelineBuild_ID pb) = true ->
  rowsLoop env (id :: rest) w
    = rowsLoop env rest
        (log Critical "MigratePipelineHistory>  Cannot insert pipeline build: %s" 0 w1)
  /\ pipeline_build w1 = pipeline_build w.
Proof.
  intros HB HG Hpb Hins. split.
  - simpl rowsLoop. unfold bind at 1.
    unfold migrateCandidate. unfold bind at 1. unfold logM at 1.
    rewrite HB. unfold bind at 1. rewrite HG. rewrite Hpb.
    unfold Exec_insert. simpl row_id. rewrite Hins. simpl. reflexivity.
  - apply getPipelineBuild_tables in HG. destruct HG as [HG _]. exact HG.
Qed.

Lemma refused_insert_skips_the_candidate_witness :
  List.map row_id
    (pipeline_build (snd (MigratePipelineHistory Sample.insert_42_refused Sample.two_new)))
  = [41]
  /\ fst (MigratePipelineHistory Sample.insert_42_refused Sample.two_new) = Normal None
  /\ exists w1,
       rowsLoop Sample.insert_42_refused [42; 41] Sample.two_new
       = rowsLoop Sample.insert_42_refused [41]
           (log Critical "MigratePipelineHistory>  Cannot insert pipeline build: %s" 0 w1)
       /\ pipeline_build w1 = [].
Proof.
  split; [vm_compute; reflexivity|]. split; [vm_compute; reflexivity|].
  let v := eval vm_compute in
    (getPipelineBuild Sample.insert_42_refused Sample.no_tx 42
       (log Notice "Pipeline History: migrating %d" 42 Sample.two_new)) in
  match v with
  | (Normal (?res, ?tx'), ?w1) =>
      match eval vm_compute in (res_pb res) with
      | Some ?pb =>
          assert (HG : getPipelineBuild Sample.insert_42_refused Sample.no_tx 42
                         (log Notice "Pipeline History: migrating %d" 42 Sample.two_new)
                       = (Normal (res, tx'), w1)) by (vm_compute; reflexivity);
          exists w1;
          exact (refused_insert_skips_the_candidate Sample.insert_42_refused 42 [41]
                   Sample.two_new w1 Sample.no_tx tx' res pb eq_refl HG eq_refl eq_refl)
      end
  end.
Defined.

(* ===================================================================== *)
(** ** What the rebuilding keeps of the skeleton *)
(* ===================================================================== *)

Lemma map_reset_if_ID (sid : Z) (stages : list Stage) :
  List.map Stage_ID (List.map (reset_if sid) stages) = List.map Stage_ID stages.
Proof.
  rewrite map_map. apply map_ext. intro s. unfold reset_if.
  destruct (Stage_ID s =? sid); reflexivity.
Qed.

Lemma map_reset_if_Name (sid : Z) (stages : list Stage) :
  List.map Stage_Name (List.map (reset_if sid) stages) = List.map Stage_Name stages.
Proof.
  rewrite map_map. apply map_ext. intro s. unfold reset_if.
  destruct (Stage_ID s =? sid); reflexivity.
Qed.

Lemma map_store (B : Type) (f : Stage -> B) (i : nat) (s s0 : Stage) (stages : list Stage) :
  nth_error stages i = Some s0 -> f s = f s0 ->
  List.map f (store i s stages) = List.map f stages.
Proof.
  revert i. induction stages as [|x rest IH]; intros i Hn Hf.
  - destruct i; discriminate Hn.
  - destruct i as [|i]; simpl in *.
    + inversion Hn; subst. rewrite Hf. reflexivity.
    + rewrite (IH i Hn Hf). reflexivity.
Qed.

Lemma Forall_store (P : Stage -> Prop) (i : nat) (s : Stage) (stages : list Stage) :
  Forall P stages -> P s -> Forall P (store i s stages).
Proof.
  revert i. induction stages as [|x rest IH]; intros i Hall Hs.
  - destruct i; constructor.
  - inversion Hall; subst. destruct i as [|i]; simpl; constructor; auto.
Qed.

(** What one iteration of the loop over the dynamic stages does to the
    skeleton, when it goes on to the next: the stages of the id of the
    entry are emptied, and the last of them gets the jobs of the entry. *)
Lemma stageEntry_Next (env : Env) (pbID : Z) (e : json) (stages stages' : list Stage)
    (w w' : world) :
  stageEntry env pbID e stages w = (Normal (Next stages'), w') ->
  exists sid i s0 s' builds jobs,
    nth_error stages i = Some s0
    /\ Stage_ID s0 = sid
    /\ stages' = store i s' (List.map (reset_if sid) stages)
    /\ Stage_ID s' = Stage_ID s0
    /\ Stage_Name s' = Stage_Name s0
    /\ Stage_Jobs s' = List.map PipelineBuildJob_Job jobs
    /\ Stage_PipelineBuildJobs s' = jobs
    /\ Forall2 (job_of_entry pbID) builds jobs.
Proof.
  unfold stageEntry. unfold_M. intro H.
  destruct (assert_map e) as [m|] eqn:Em; try discriminate H. simpl in H.
  destruct (assert_float64 (lookup "id" m)) as [f|] eqn:Ef; try discriminate H. simpl in H.
  set (sid := int64_of_float64 f) in *.
  pose proof (findStageToUpdate_stages sid stages 0 None) as Hst.
  pose proof (findStageToUpdate_pointer sid stages 0 None) as Hp.
  destruct (findStageToUpdate sid stages 0 None) as [p stages1]. simpl in Hst, Hp.
  destruct Hp as [[_ ->] | [i [s0 [-> [Hi [Hid _]]]]]].
  - simpl in H. discriminate H.
  - simpl in H.
    destruct (assert_slice (lookup "builds" m)) as [builds|] eqn:Eb; try discriminate H.
    simpl in H.
    assert (Hn1 : nth_error stages1 i = Some (clear_jobs s0)).
    { subst stages1. rewrite nth_error_map, Hi. simpl. unfold reset_if.
      rewrite Hid, Z.eqb_refl. reflexivity. }
    rewrite (nth_error_nth _ _ _ Hn1) in H.
    destruct (buildsLoop env pbID builds (clear_jobs s0) w) as [[r|r] w1] eqn:EB;
      try discriminate H.
    destruct r as [s'|res1]; [|discriminate H].
    inversion H; subst stages' w1; clear H.
    apply buildsLoop_Next in EB.
    destruct EB as [jobs [HF [Hid' [Hname' [_ [Hjobs Hpbj]]]]]]. simpl in *.
    exists sid, i, s0, s', builds, jobs. subst stages1. repeat split; auto.
Qed.

(** The jobs of a stage are in step with its build jobs, and each build
    job is a job of the build [pbID], enabled. *)
Definition jobs_in_step (pbID : Z) (s : Stage) : Prop :=
  Stage_Jobs s = List.map PipelineBuildJob_Job (Stage_PipelineBuildJobs s)
  /\ Forall (fun pbJob => PipelineBuildJob_PipelineBuildID pbJob = pbID /\ enabled pbJob)
       (Stage_PipelineBuildJobs s).

Lemma job_of_entry_build (pbID : Z) (builds : list json) (jobs : list PipelineBuildJob) :
  Forall2 (job_of_entry pbID) builds jobs ->
  Forall (fun pbJob => PipelineBuildJob_PipelineBuildID pbJob = pbID /\ enabled pbJob) jobs.
Proof.
  induction 1 as [|b j bs js Hj _ IH]; constructor; auto.
  destruct Hj as [m [id [status [name [paID Hj]]]]].
  decompose [and] Hj. split; [assumption|]. unfold enabled.
  match goal with H : PipelineBuildJob_Job j = _ |- _ => rewrite H end. reflexivity.
Qed.

(** X5. The loop over the dynamic stages keeps the stages of the
    skeleton in place: when it runs to its end, the result has the same
    stage ids and the same stage names, in the same order; only the job
    lists have changed. *)
Theorem stages_keep_their_order (env : Env) (pbID : Z) (entries : list json) :
  forall (stages stages' : list Stage) (w w' : world),
    stagesLoop env pbID entries stages w = (Normal (Next stages'), w') ->
    List.map Stage_ID stages' = List.map Stage_ID stages
    /\ List.map Stage_Name stages' = List.map Stage_Name stages.
Proof.
  induction entries as [|e rest IH]; intros stages stages' w w' H; simpl in H.
  - unfold ret in H. inversion H; subst. split; reflexivity.
  - unfold bind in H.
    destruct (stageEntry env pbID e stages w) as [[r|r] w1] eqn:E; try discriminate H.
    destruct r as [stages1|res]; [|discriminate H].
    apply IH in H. destruct H as [H1 H2].
    apply stageEntry_Next in E.
    destruct E as [sid [i [s0 [s' [builds [jobs [Hi [Hid [-> [Hid' [Hname' _]]]]]]]]]]].
    assert (Hn1 : nth_error (List.map (reset_if sid) stages) i = Some (clear_jobs s0)).
    { rewrite nth_error_map, Hi. simpl. unfold reset_if. rewrite Hid, Z.eqb_refl.
      reflexivity. }
    rewrite H1, H2.
    rewrite (map_store _ Stage_ID _ _ _ _ Hn1 Hid').
    rewrite (map_store _ Stage_Name _ _ _ _ Hn1 Hname').
    rewrite map_reset_if_ID, map_reset_if_Name. split; reflexivity.
Qed.

Lemma stages_keep_their_order_witness :
  stagesLoop Sample.quiet 42
    [JObject [("id", JNumber 2); ("builds", JArray [])]; Sample.stage1_entry]
    [Sample.stage1 [Sample.old_job];
     {| Stage_ID := 2; Stage_Name := "deploy"; Stage_Status := "";
        Stage_Jobs := []; Stage_PipelineBuildJobs := [] |}]
    (Sample.store_of [] [])
  = (Normal (Next [Sample.stage1 [Sample.job9_built];
                   {| Stage_ID := 2; Stage_Name := "deploy"; Stage_Status := "";
                      Stage_Jobs := []; Stage_PipelineBuildJobs := [] |}]),
     tick (tick (Sample.store_of [] [])))
  /\ List.map Stage_ID [Sample.stage1 [Sample.job9_built];
                        {| Stage_ID := 2; Stage_Name := "deploy"; Stage_Status := "";
                           Stage_Jobs := []; Stage_PipelineBuildJobs := [] |}]
     = [1; 2].
Proof.
  assert (H : stagesLoop Sample.quiet 42
                [JObject [("id", JNumber 2); ("builds", JArray [])]; Sample.stage1_entry]
                [Sample.stage1 [Sample.old_job];
                 {| Stage_ID := 2; Stage_Name := "deploy"; Stage_Status := "";
                    Stage_Jobs := []; Stage_PipelineBuildJobs := [] |}]
                (Sample.store_of [] [])
              = (Normal (Next [Sample.stage1 [Sample.job9_built];
                               {| Stage_ID := 2; Stage_Name := "deploy"; Stage_Status := "";
                                  Stage_Jobs := []; Stage_PipelineBuildJobs := [] |}]),
                 tick (tick (Sample.store_of [] [])))) by (vm_compute; reflexivity).
  split; [exact H|].
  destruct (stages_keep_their_order _ _ _ _ _ _ _ H) as [Hids _].
  rewrite Hids. reflexivity.
Defined.

(** X6. The loop over the dynamic stages keeps the two job lists of
    every stage in step: when each stage of the skeleton has as [Jobs] the
    jobs of its [PipelineBuildJobs], all of the build [pbID] and enabled,
    so has each stage of the result. *)
Theorem stages_keep_jobs_in_step (env : Env) (pbID : Z) (entries : list json) :
  forall (stages stages' : list Stage) (w w' : world),
    Forall (jobs_in_step pbID) stages ->
    stagesLoop env pbID entries stages w = (Normal (Next stages'), w') ->
    Forall (jobs_in_step pbID) stages'.
Proof.
  induction entries as [|e rest IH]; intros stages stages' w w' Hall H; simpl in H.
  - unfold ret in H. inversion H; subst. exact Hall.
  - unfold bind in H.
    destruct (stageEntry env pbID e stages w) as [[r|r] w1] eqn:E; try discriminate H.
    destruct r as [stages1|res]; [|discriminate H].
    apply (IH stages1 stages' w1 w'); [|exact H].
    apply stageEntry_Next in E.
    destruct E as [sid [i [s0 [s' [builds [jobs [_ [_ [-> [_ [_ [Hj [Hp HF]]]]]]]]]]]]].
    apply Forall_store.
    + apply Forall_forall. intros s Hin. apply in_map_iff in Hin.
      destruct Hin as [s1 [<- Hin1]]. rewrite Forall_forall in Hall.
      unfold reset_if. destruct (Stage_ID s1 =? sid).
      * split; [reflexivity | constructor].
      * apply Hall. exact Hin1.
    + split; [rewrite Hj, Hp; reflexivity|]. rewrite Hp.
      eapply job_of_entry_build. exact HF.
Qed.

Lemma stages_keep_jobs_in_step_witness :
  Forall (jobs_in_step 42) [Sample.stage1 []]
  /\ Forall (jobs_in_step 42) [Sample.stage1 [Sample.job9_built]].
Proof.
  assert (Hall : Forall (jobs_in_step 42) [Sample.stage1 []]).
  { constructor; [|constructor]. split; [reflexivity | constructor]. }
  assert (H : stagesLoop Sample.quiet 42 [Sample.stage1_entry] [Sample.stage1 []]
                (Sample.store_of [] [])
              = (Normal (Next [Sample.stage1 [Sample.job9_built]]),
                 tick (tick (Sample.store_of [] [])))) by (vm_compute; reflexivity).
  split; [exact Hall|].
  exact (stages_keep_jobs_in_step _ _ _ _ _ _ _ Hall H).
Defined.

(* ===================================================================== *)
(** ** Entries that the type assertions do not accept *)
(* ===================================================================== *)

(** The fields that the code asserts in a job entry, with their types,
    and its parameters, decoded. *)
Definition job_fields (m : list (string * json)) (startTimeS doneTimeS : string)
    (id : Z) (status name : string) (paID : Z) (parameters : list sdkParameter) : Prop :=
  lookup "start" m = Some (JString startTimeS)
  /\ lookup "done" m = Some (JString doneTimeS)
  /\ Unmarshal.parameters (lookup "args" m) = inr parameters
  /\ lookup "id" m = Some (JNumber id)
  /\ lookup "status" m = Some (JString status)
  /\ lookup "action_name" m = Some (JString name)
  /\ lookup "pipeline_action_id" m = Some (JNumber paID).

(** X7. A job is built from an entry exactly when the entry is an object
    whose "start", "done", "status" and "action_name" are strings, whose
    "id" and "pipeline_action_id" are numbers and whose "args" decode to
    parameters; the job then holds these values. For any other entry the
    function panics or returns an error. *)
Theorem job_is_built_iff (env : Env) (pbID : Z) (b : json) (w : world)
    (pbJob : PipelineBuildJob) (w' : world) :
  buildJob env pbID b w = (Normal (Next pbJob), w')
  <-> exists m startTimeS doneTimeS id status name paID parameters,
        b = JObject m
        /\ job_fields m startTimeS doneTimeS id status name paID parameters
        /\ w' = tick (tick w)
        /\ pbJob =
           {| PipelineBuildJob_ID := int64_of_float64 (float64_of_Z id);
              PipelineBuildJob_Parameters := parameters;
              PipelineBuildJob_PipelineBuildID := pbID;
              PipelineBuildJob_Model := "";
              PipelineBuildJob_Status := status;
              PipelineBuildJob_Job :=
                {| Job_Action := {| Action_Name := name |};
                   Job_Enabled := true;
                   Job_PipelineActionID := int64_of_float64 (float64_of_Z paID) |};
              PipelineBuildJob_Start := now env (clock w);
              PipelineBuildJob_Done := now env (S (clock w)) |}.
Proof.
  split.
  - unfold buildJob. unfold_M. intro H.
    destruct (assert_map b) as [m|] eqn:Em; try discriminate H.
    apply assert_map_Normal in Em. simpl in H.
    destruct (assert_string (lookup "start" m)) as [startTimeS|] eqn:Es; try discriminate H.
    simpl in H.
    destruct (assert_string (lookup "done" m)) as [doneTimeS|] eqn:Ed; try discriminate H.
    simpl in H.
    destruct (Unmarshal.parameters (lookup "args" m)) as [err|ps] eqn:Ep.
    { simpl in H. discriminate H. }
    destruct (assert_float64 (lookup "id" m)) as [id|] eqn:Ei; try discriminate H.
    simpl in H.
    destruct (assert_string (lookup "status" m)) as [status|] eqn:Est; try discriminate H.
    simpl in H.
    destruct (assert_string (lookup "action_name" m)) as [name|] eqn:En; try discriminate H.
    simpl in H.
    destruct (assert_float64 (lookup "pipeline_action_id" m)) as [paID|] eqn:Epa;
      try discriminate H.
    simpl in H. inversion H; subst; clear H.
    apply assert_float64_Normal in Ei. destruct Ei as [n [Ei ->]].
    apply assert_float64_Normal in Epa. destruct Epa as [n' [Epa ->]].
    apply assert_string_Normal in Es, Ed, Est, En.
    exists m, startTimeS, doneTimeS, n, status, name, n', ps.
    unfold job_fields. repeat split; auto.
  - intros [m [startTimeS [doneTimeS [id [status [name [paID [ps
             [-> [[Hs [Hd [Hp [Hi [Hst [Hn Hpa]]]]]] [-> ->]]]]]]]]]]].
    unfold buildJob. unfold_M. simpl.
    rewrite Hs, Hd. simpl. rewrite Hp, Hi, Hst, Hn, Hpa. simpl. reflexivity.
Qed.

Definition not_a_slice : string :=
  "interface conversion: interface {} is not []interface {}".

Lemma findStageToUpdate_Some (sID : Z) (stages : list Stage) (s : Stage) :
  In s stages -> Stage_ID s = sID ->
  exists i, fst (findStageToUpdate sID stages 0 None) = Some i.
Proof.
  intros Hin Hid.
  destruct (findStageToUpdate_pointer sID stages 0 None)
    as [[Hnone _] | [k [s0 [Hp _]]]].
  - rewrite Forall_forall in Hnone. exfalso. apply (Hnone s Hin). exact Hid.
  - exists k. exact Hp.
Qed.

(** X8. A dynamic stage entry whose stage is in the skeleton but whose
    "builds" is not a list (the key is absent, or its value is null, as
    for a stage without job) makes the loop over the stages panic on the
    type assertion; the entries after it are not read. *)
Theorem stage_without_builds_panics (env : Env) (pbID : Z) (pre post : list json)
    (m : list (string * json)) (n : Z) (stages stages1 : list Stage) (w w1 : world)
    (s : Stage) :
  stagesLoop env pbID pre stages w = (Normal (Next stages1), w1) ->
  lookup "id" m = Some (JNumber n) ->
  In s stages1 -> Stage_ID s = int64_of_float64 (float64_of_Z n) ->
  (forall l, lookup "builds" m <> Some (JArray l)) ->
  stagesLoop env pbID (pre ++ JObject m :: post) stages w = (Panic not_a_slice, w1).
Proof.
  intros Hpre Hid Hin Hs Hb.
  rewrite (stagesLoop_app _ _ _ _ _ _ _ _ Hpre). simpl. unfold bind.
  assert (E : stageEntry env pbID (JObject m) stages1 w1 = (Panic not_a_slice, w1)).
  { unfold stageEntry. unfold_M. simpl. rewrite Hid. simpl.
    destruct (findStageToUpdate_Some _ _ _ Hin Hs) as [i Hi].
    destruct (findStageToUpdate (int64_of_float64 (float64_of_Z n)) stages1 0 None)
      as [p stages2]. simpl in Hi. subst p.
    destruct (lookup "builds" m) as [[| | | |l|]|] eqn:El; simpl; try reflexivity.
    exfalso. apply (Hb l). reflexivity. }
  rewrite E. reflexivity.
Qed.

Lemma stage_without_builds_panics_witness :
  stagesLoop Sample.quiet 42
    ([Sample.stage1_entry] ++ JObject [("id", JNumber 1); ("builds", JNull)] :: [])
    [Sample.stage1 []] (Sample.store_of [] [])
  = (Panic not_a_slice, tick (tick (Sample.store_of [] [])))
  /\ fst (MigratePipelineHistory Sample.quiet
            (Sample.store_of
               [Sample.row 42 3 (Some "master")
                  (Document
                     (JObject [("id", JNumber 42);
                               ("stages",
                                JArray [JObject [("id", JNumber 1); ("builds", JNull)]])]))]
               []))
     = Panic not_a_slice.
Proof.
  assert (Hpre : stagesLoop Sample.quiet 42 [Sample.stage1_entry] [Sample.stage1 []]
                   (Sample.store_of [] [])
                 = (Normal (Next [Sample.stage1 [Sample.job9_built]]),
                    tick (tick (Sample.store_of [] [])))) by (vm_compute; reflexivity).
  assert (Hb : forall l, lookup "builds" [("id", JNumber 1); ("builds", JNull)]
                         <> Some (JArray l)) by (intros l Hl; discriminate Hl).
  split; [|vm_compute; reflexivity].
  exact (stage_without_builds_panics Sample.quiet 42 [Sample.stage1_entry] []
           [("id", JNumber 1); ("builds", JNull)] 1 _ _ _ _
           (Sample.stage1 [Sample.job9_built]) Hpre eq_refl (or_introl eq_refl) eq_refl Hb).
Defined.

(* ===================================================================== *)
(** ** The two queries *)
(* ===================================================================== *)

Lemma branch_eqb_eq (a b : option string) : branch_eqb a b = true <-> a = b.
Proof.
  destruct a as [x|], b as [y|]; simpl; split; intro H;
    try discriminate H; try reflexivity.
  - apply String.eqb_eq in H. subst. reflexivity.
  - inversion H; subst. apply String.eqb_refl.
Qed.

Lemma group_eqb_eq (a b : group) : group_eqb a b = true <-> a = b.
Proof.
  destruct a as [a1 a2 a3 a4], b as [b1 b2 b3 b4]. unfold group_eqb. simpl.
  rewrite !andb_true_iff, !Z.eqb_eq, branch_eqb_eq. split.
  - intros [[[-> ->] ->] ->]. reflexivity.
  - intro H. inversion H; subst. auto.
Qed.

Lemma existsb_group_eqb (g : group) (l : list group) :
  existsb (group_eqb g) l = true <-> In g l.
Proof.
  rewrite existsb_exists. split.
  - intros [x [Hin Hx]]. apply group_eqb_eq in Hx. subst. exact Hin.
  - intro Hin. exists g. split; [exact Hin | apply group_eqb_eq; reflexivity].
Qed.

Lemma distinct_fold (l : list group) :
  forall acc, NoDup acc ->
    NoDup (fold_left (fun acc g => if existsb (group_eqb g) acc then acc
                                   else (acc ++ [g])%list) l acc)
    /\ forall g, In g (fold_left (fun acc g => if existsb (group_eqb g) acc then acc
                                               else (acc ++ [g])%list) l acc)
                 <-> In g acc \/ In g l.
Proof.
  induction l as [|x rest IH]; intros acc Hnd; simpl.
  - split; [exact Hnd | intro g; tauto].
  - destruct (existsb (group_eqb x) acc) eqn:E.
    + apply existsb_group_eqb in E. destruct (IH acc Hnd) as [H1 H2].
      split; [exact H1|]. intro g. rewrite H2. split; [tauto|].
      intros [H|[<-|H]]; auto.
    + assert (Hx : ~ In x acc).
      { intro Hin. apply existsb_group_eqb in Hin. congruence. }
      assert (Hnd' : NoDup (acc ++ [x])).
      { apply NoDup_app; [exact Hnd | constructor; [intros [] | constructor] |].
        intros y Hy [<-|[]]. contradiction. }
      destruct (IH _ Hnd') as [H1 H2]. split; [exact H1|].
      intro g. rewrite H2, in_app_iff. simpl. tauto.
Qed.

(** X9. The query of the groups lists each combination of application,
    pipeline, environment and branch found in the legacy table, NULL
    branch included, and lists it once. *)
Theorem each_group_is_listed_once (w : world) :
  NoDup (queryDistinct w)
  /\ forall g, In g (queryDistinct w)
               <-> exists r, In r (pipeline_history_old w) /\ group_of r = g.
Proof.
  unfold queryDistinct.
  set (groups := distinct (List.map group_of (pipeline_history_old w))).
  pose proof (order_by_Permutation _ group_leb groups) as Hperm.
  destruct (distinct_fold (List.map group_of (pipeline_history_old w)) [] (NoDup_nil _))
    as [Hnd Hin].
  fold (distinct (List.map group_of (pipeline_history_old w))) in Hnd, Hin.
  fold groups in Hnd, Hin.
  split.
  - eapply Permutation_NoDup; [apply Permutation_sym; exact Hperm | exact Hnd].
  - intro g. split.
    + intro H. apply (Permutation_in _ Hperm) in H. apply Hin in H.
      destruct H as [[]|H]. apply in_map_iff in H. destruct H as [r [Hr Hin']].
      exists r. split; assumption.
    + intros [r [Hr <-]]. apply (Permutation_in _ (Permutation_sym Hperm)).
      apply Hin. right. apply in_map. exact Hr.
Qed.

(** X10. The query of the candidates returns at most 10 ids, and each is
    the id of a row of the legacy table with the application, the
    pipeline, the environment and the branch of the group, a branch that
    is not NULL. *)
Theorem candidates_are_rows_of_the_group (g : group) (w : world) :
  (List.length (querySelectByCriteria g w) <= 10)%nat
  /\ forall id, In id (querySelectByCriteria g w) ->
       exists r branch,
         In r (pipeline_history_old w)
         /\ h_pipeline_build_id r = id
         /\ h_application_id r = g_appID g
         /\ h_pipeline_id r = g_pipID g
         /\ h_environment_id r = g_envID g
         /\ h_vcs_changes_branch r = Some branch
         /\ g_branchName g = Some branch.
Proof.
  unfold querySelectByCriteria. split.
  - rewrite length_map, length_firstn. lia.
  - intros id Hin. apply in_map_iff in Hin. destruct Hin as [r [Hid Hin]].
    assert (Hin' : In r (order_by version_desc
                           (filter (criteria g) (pipeline_history_old w)))).
    { rewrite <- (firstn_skipn 10). apply in_or_app. left. exact Hin. }
    apply (Permutation_in _ (order_by_Permutation _ _ _)) in Hin'.
    apply filter_In in Hin'. destruct Hin' as [Hr Hc].
    unfold criteria in Hc. rewrite !andb_true_iff, !Z.eqb_eq in Hc.
    destruct Hc as [[[Ha Hp] He] Hb]. unfold sql_eq_text in Hb.
    destruct (h_vcs_changes_branch r) as [x|] eqn:Ex; [|discriminate Hb].
    destruct (g_branchName g) as [y|] eqn:Ey; [|discriminate Hb].
    apply String.eqb_eq in Hb. subst y.
    exists r, x. repeat split; auto.
Qed.

(** X11. When at most 10 rows of the legacy table are of the group, all
    of them are candidates, each once. *)
Theorem small_group_is_selected_whole (g : group) (w : world) :
  (List.length (filter (criteria g) (pipeline_history_old w)) <= 10)%nat ->
  Permutation (querySelectByCriteria g w)
    (List.map h_pipeline_build_id (filter (criteria g) (pipeline_history_old w))).
Proof.
  intro Hlen. unfold querySelectByCriteria. apply Permutation_map.
  pose proof (order_by_Permutation _ version_desc
                (filter (criteria g) (pipeline_history_old w))) as Hperm.
  rewrite firstn_all2; [exact Hperm|].
  rewrite (Permutation_length Hperm). exact Hlen.
Qed.

Lemma small_group_is_selected_whole_witness :
  querySelectByCriteria (Sample.group_1_7_1 (Some "master")) Sample.two_new = [42; 41]
  /\ Permutation (querySelectByCriteria (Sample.group_1_7_1 (Some "master")) Sample.two_new)
       [42; 41].
Proof.
  split; [vm_compute; reflexivity|].
  assert (Hlen : (List.length (filter (criteria (Sample.group_1_7_1 (Some "master")))
                                 (pipeline_history_old Sample.two_new)) <= 10)%nat)
    by (vm_compute; lia).
  exact (small_group_is_selected_whole (Sample.group_1_7_1 (Some "master"))
           Sample.two_new Hlen).
Defined.

Lemma candidates_are_the_top_ten_witness :
  (10 < List.length (filter (criteria (Sample.group_1_7_1 (Some "master")))
                       (pipeline_history_old (Sample.eleven (Some "master")))))%nat
  /\ exists selected others,
       List.map h_pipeline_build_id selected
       = [111; 110; 109; 108; 107; 106; 105; 104; 103; 102]
       /\ List.length selected = 10%nat
       /\ (forall a b, In a selected -> In b others -> h_version b <= h_version a).
Proof.
  assert (Hlen : (10 < List.length (filter (criteria (Sample.group_1_7_1 (Some "master")))
                            (pipeline_history_old (Sample.eleven (Some "master")))))%nat)
    by (vm_compute; lia).
  split; [exact Hlen|].
  destruct (candidates_are_the_top_ten (Sample.group_1_7_1 (Some "master"))
              (Sample.eleven (Some "master")) Hlen)
    as [selected [others [_ [Hl [Hq [_ Hv]]]]]].
  exists selected, others. split; [|split; [exact Hl | exact Hv]].
  rewrite <- Hq. vm_compute. reflexivity.
Defined.

(* ===================================================================== *)
(** ** The three batches of updateParametersInPipelineHandler *)
(* ===================================================================== *)

Section UpdateParametersFacts.
Variable Param : Type.
Variable Param_ID : Param -> Z.

Local Abbreviation in_request l := (fun p => found Param_ID (Param_ID p) l).

Lemma found_In (id : Z) (l : list Param) :
  found Param_ID id l = true <-> In id (List.map Param_ID l).
Proof.
  induction l as [|p rest IH]; simpl.
  - split; [discriminate | intros []].
  - destruct (Param_ID p =? id) eqn:E.
    + apply Z.eqb_eq in E. split; auto.
    + apply Z.eqb_neq in E. rewrite IH. split; [auto | intros [H|H]; [contradiction | exact H]].
Qed.

Lemma first_new_Some (id : Z) (l : list Param) (new : Param) :
  first_new Param_ID id l = Some new -> In new l /\ Param_ID new = id.
Proof.
  induction l as [|x rest IH]; simpl; [discriminate|].
  destruct (id =? Param_ID x) eqn:E.
  - intro H. inversion H; subst. apply Z.eqb_eq in E. auto.
  - intro H. destruct (IH H). auto.
Qed.

Lemma first_new_None (id : Z) (l : list Param) :
  first_new Param_ID id l = None <-> found Param_ID id l = false.
Proof.
  induction l as [|x rest IH]; simpl; [tauto|].
  rewrite (Z.eqb_sym id). destruct (Param_ID x =? id); [split; discriminate | exact IH].
Qed.

Lemma updated_and_deleted_spec (parameters pipParams : list Param) :
  forall u d,
    let r := updated_and_deleted Param_ID parameters pipParams u d in
    snd r = (d ++ filter (fun p => negb (in_request pipParams p)) parameters)%list
    /\ exists news,
         fst r = (u ++ news)%list
         /\ Forall2 (fun p new => first_new Param_ID (Param_ID p) pipParams = Some new)
              (filter (in_request pipParams) parameters) news.
Proof.
  induction parameters as [|p rest IH]; intros u d; simpl.
  - rewrite app_nil_r. split; [reflexivity|]. exists []. rewrite app_nil_r. split; constructor.
  - destruct (first_new Param_ID (Param_ID p) pipParams) as [new|] eqn:E.
    + assert (Hf : found Param_ID (Param_ID p) pipParams = true).
      { destruct (found Param_ID (Param_ID p) pipParams) eqn:Ef; [reflexivity|].
        apply first_new_None in Ef. congruence. }
      rewrite Hf. simpl.
      destruct (IH (u ++ [new])%list d) as [H1 [news [H2 H3]]].
      split; [exact H1|]. exists (new :: news).
      split; [rewrite H2, <- app_assoc; reflexivity | constructor; assumption].
    + apply first_new_None in E. rewrite E. simpl.
      destruct (IH u (d ++ [p])%list) as [H1 [news [H2 H3]]].
      split; [rewrite H1, <- app_assoc; reflexivity|].
      exists news. split; assumption.
Qed.

Lemma added_loop_spec (pipParams parameters : list Param) :
  forall a,
    added_loop Param_ID pipParams parameters a
    = (a ++ filter (fun new => negb (found Param_ID (Param_ID new) parameters)) pipParams)%list.
Proof.
  induction pipParams as [|new rest IH]; intro a; simpl.
  - rewrite app_nil_r. reflexivity.
  - destruct (found Param_ID (Param_ID new) parameters); simpl.
    + apply IH.
    + rewrite IH, <- app_assoc. reflexivity.
Qed.


Lemma NoDup_map_filter (f : Param -> bool) (l : list Param) :
  NoDup (List.map Param_ID l) -> NoDup (List.map Param_ID (filter f l)).
Proof.
  induction l as [|x rest IH]; simpl; intro H; [constructor|].
  inversion H as [|? ? Hx Hr]; subst. destruct (f x); simpl; [|auto].
  constructor; [|auto]. intro Hin. apply Hx.
  apply in_map_iff in Hin. destruct Hin as [y [Hy Hin]]. apply filter_In in Hin.
  rewrite <- Hy. apply in_map. tauto.
Qed.

Lemma NoDup_of_ids (l : list Param) : NoDup (List.map Param_ID l) -> NoDup l.
Proof.
  induction l as [|x rest IH]; simpl; intro H; [constructor|].
  inversion H as [|? ? Hx Hr]; subst. constructor; [|auto].
  intro Hin. apply Hx. apply in_map. exact Hin.
Qed.


End UpdateParametersFacts.


(* ===================================================================== *)
(** ** templateextension.Apply *)
(* ===================================================================== *)

Lemma cut_Some (s before after : string) :
  templateextension.cut s = Some (before, after) ->
  s = (before ++ "##" ++ after)%string.
Proof.
  revert before. induction s as [|c rest IH]; intros before H; simpl in H.
  - discriminate H.
  - assert (Hrec : match templateextension.cut rest with
                   | Some (b, a) => Some (String c b, a)
                   | None => None
                   end = Some (before, after) ->
                   String c rest = (before ++ "##" ++ after)%string).
    { destruct (templateextension.cut rest) as [[b a]|] eqn:E; [|discriminate].
      intro H1. inversion H1; subst. simpl. rewrite (IH b eq_refl). reflexivity. }
    destruct c as [b0 b1 b2 b3 b4 b5 b6 b7].
    destruct b0, b1, b2, b3, b4, b5, b6, b7; try (apply Hrec; exact H).
    destruct rest as [|c' rest']; [discriminate H|].
    destruct c' as [c0 c1 c2 c3 c4 c5 c6 c7].
    destruct c0, c1, c2, c3, c4, c5, c6, c7; try (apply Hrec; exact H).
    inversion H; subst. reflexivity.
Qed.

Section ApplyFacts.
Import templateextension.
Variable E : Type.
Variable ErrInvalidApplicationPattern : E.
Variable RepositoryVariable : string.
Variable NamePattern_MatchString : string -> bool.
Variable templ_Apply :
  string -> string -> list (string * string) -> Application * option E.
Variable LoadByName : string -> E + RepositoriesManager.
Variable Client : Type.
Variable AuthorizedClient : string -> string -> E + Client.
Variable RepoByFullname : Client -> string -> E + string.

Local Abbreviation the_variablesLoop :=
  (variablesLoop E Client AuthorizedClient RepoByFullname).
Local Abbreviation the_paramsLoop :=
  (paramsLoop E RepositoryVariable LoadByName Client AuthorizedClient RepoByFullname).
Local Abbreviation the_Apply :=
  (Apply E ErrInvalidApplicationPattern RepositoryVariable NamePattern_MatchString
     templ_Apply LoadByName Client AuthorizedClient RepoByFullname).

(** A parameter that attaches the application to a repository of a
    repositories manager: its type is the one of the repositories and its
    value is [manager ## fullname]. *)
Definition attaches (p : TemplateParam) (manager fullname : string) : Prop :=
  TemplateParam_Type p = RepositoryVariable
  /\ cut (TemplateParam_Value p) = Some (manager, fullname).

Lemma variablesLoop_names (projKey managerName fullname pName : string)
    (variables variables' : list sdkVariable) :
  the_variablesLoop projKey managerName fullname pName variables = inr variables' ->
  List.map Variable_Name variables' = List.map Variable_Name variables.
Proof.
  revert variables'. induction variables as [|v rest IH]; intros variables' H; simpl in H.
  - inversion H; reflexivity.
  - destruct (String.eqb (Variable_Name v) pName).
    + destruct (AuthorizedClient projKey managerName) as [e|client]; [discriminate H|].
      destruct (RepoByFullname client fullname) as [e|url]; [discriminate H|].
      destruct (the_variablesLoop projKey managerName fullname pName rest) as [e|rest'];
        [discriminate H|].
      inversion H; subst. simpl. rewrite (IH rest' eq_refl). reflexivity.
    + destruct (the_variablesLoop projKey managerName fullname pName rest) as [e|rest'];
        [discriminate H|].
      inversion H; subst. simpl. rewrite (IH rest' eq_refl). reflexivity.
Qed.

Lemma SplitN_two (s manager fullname : string) :
  SplitN s = [manager; fullname] <-> cut s = Some (manager, fullname).
Proof.
  unfold SplitN. destruct (cut s) as [[b a]|]; split; intro H; inversion H; reflexivity.
Qed.

Lemma SplitN_cases (s : string) :
  (exists manager fullname, SplitN s = [manager; fullname]) \/ SplitN s = [s].
Proof.
  unfold SplitN. destruct (cut s) as [[b a]|]; [left; eauto | right; reflexivity].
Qed.

(** What the loop "Check repo parameter" leaves: either no parameter
    attached the application, and the application and the error are as
    they were, or the last one that did so set the manager, the full name
    and a nil error. *)
Lemma paramsLoop_inr (projKey : string) (params : list TemplateParam) :
  forall (app app' : Application) (err err' : option E),
    the_paramsLoop projKey params app err = inr (app', err') ->
    List.map Variable_Name (Application_Variable app')
    = List.map Variable_Name (Application_Variable app)
    /\ Application_Name app' = Application_Name app
    /\ Application_ProjectKey app' = Application_ProjectKey app
    /\ (((forall p manager fullname, In p params -> ~ attaches p manager fullname)
         /\ app' = app /\ err' = err)
        \/ (err' = None
            /\ exists p manager fullname rm,
                 In p params
                 /\ attaches p manager fullname
                 /\ LoadByName manager = inr rm
                 /\ Application_RepositoriesManager app' = Some rm
                 /\ Application_RepositoryFullname app' = fullname)).
Proof.
  induction params as [|p rest IH]; intros app app' err err' H; simpl in H.
  - inversion H; subst. split; [reflexivity|]. split; [reflexivity|].
    split; [reflexivity|]. left. split; [intros p m f []|split; reflexivity].
  - assert (Hskip : (forall manager fullname, ~ attaches p manager fullname) ->
                    the_paramsLoop projKey rest app err = inr (app', err') ->
                    List.map Variable_Name (Application_Variable app')
                    = List.map Variable_Name (Application_Variable app)
                    /\ Application_Name app' = Application_Name app
                    /\ Application_ProjectKey app' = Application_ProjectKey app
                    /\ (((forall p0 manager fullname, In p0 (p :: rest) ->
                                                     ~ attaches p0 manager fullname)
                         /\ app' = app /\ err' = err)
                        \/ (err' = None
                            /\ exists p0 manager fullname rm,
                                 In p0 (p :: rest)
                                 /\ attaches p0 manager fullname
                                 /\ LoadByName manager = inr rm
                                 /\ Application_RepositoriesManager app' = Some rm
                                 /\ Application_RepositoryFullname app' = fullname))).
    { intros Hno H1. destruct (IH _ _ _ _ H1) as [Hv [Hn [Hk Hcase]]].
      split; [exact Hv|]. split; [exact Hn|]. split; [exact Hk|].
      destruct Hcase as [[Hnone [-> ->]] | [-> [p0 [m [f [rm [Hin Hrest]]]]]]].
      - left. split; [|split; reflexivity].
        intros p0 m f [<-|Hin]; [apply Hno | apply Hnone; exact Hin].
      - right. split; [reflexivity|]. exists p0, m, f, rm. split; [right; exact Hin | exact Hrest]. }
    destruct (String.eqb (TemplateParam_Type p) RepositoryVariable) eqn:Et.
    2:{ apply Hskip; [|exact H]. intros m f [Hty _]. apply String.eqb_neq in Et. contradiction. }
    apply String.eqb_eq in Et.
    destruct (SplitN_cases (TemplateParam_Value p)) as [[manager [fullname Hs]] | Hs].
    2:{ rewrite Hs in H. apply Hskip; [|exact H]. intros m f [_ Hc].
        apply SplitN_two in Hc. rewrite Hs in Hc. discriminate Hc. }
    rewrite Hs in H. apply SplitN_two in Hs.
    destruct (LoadByName manager) as [e|rm] eqn:El; [discriminate H|].
    destruct (the_variablesLoop projKey (RepositoriesManager_Name rm) fullname
                (TemplateParam_Name p) (Application_Variable app)) as [e|variables] eqn:Ev;
      [discriminate H|].
    apply variablesLoop_names in Ev.
    destruct (IH _ _ _ _ H) as [Hv [Hn [Hk Hcase]]]. simpl in Hv, Hn, Hk.
    split; [congruence|]. split; [exact Hn|]. split; [exact Hk|].
    right. destruct Hcase as [[_ [-> ->]] | [-> [p0 [m [f [rm0 [Hin Hrest]]]]]]].
    + split; [reflexivity|]. exists p, manager, fullname, rm. simpl.
      split; [left; reflexivity|]. split; [split; assumption|].
      split; [exact El|]. split; reflexivity.
    + split; [reflexivity|]. exists p0, m, f, rm0. split; [right; exact Hin | exact Hrest].
Qed.

(** X14. [Apply] never returns a nil application with a nil error. An
    application that it returns has the name that was asked, which the
    pattern of the names accepts, and the key of the project, whatever the
    template put there; its variables are those of the template, with
    their names in their order. *)
Theorem applied_application_is_named (projKey : string) (params : list TemplateParam)
    (appName : string) :
  match the_Apply projKey params appName with
  | (None, err) => err <> None
  | (Some app, _) =>
      NamePattern_MatchString appName = true
      /\ Application_Name app = appName
      /\ Application_ProjectKey app = projKey
      /\ List.map Variable_Name (Application_Variable app)
         = List.map Variable_Name
             (Application_Variable
                (fst (templ_Apply projKey appName (parameters_of params))))
  end.
Proof.
  unfold Apply. destruct (NamePattern_MatchString appName); simpl; [|discriminate].
  destruct (templ_Apply projKey appName (parameters_of params)) as [app0 err0]. simpl.
  destruct (the_paramsLoop projKey params app0 err0) as [e|[app err]] eqn:EL.
  - discriminate.
  - apply paramsLoop_inr in EL. destruct EL as [Hv _]. simpl. auto.
Qed.

(** X15. When a parameter attaches the application to a repository
    ([manager ## fullname], of the type of the repositories) and [Apply]
    returns an application, the error that it returns is nil, whatever
    error the template itself returned; the application has the manager
    that [LoadByName] gave for such a parameter and the full name of that
    parameter. *)
Theorem attached_application_has_no_error (projKey : string) (params : list TemplateParam)
    (appName : string) (app : Application) (err : option E)
    (p : TemplateParam) (manager fullname : string) :
  the_Apply projKey params appName = (Some app, err) ->
  In p params -> attaches p manager fullname ->
  err = None
  /\ exists p' manager' fullname' rm,
       In p' params
       /\ TemplateParam_Type p' = RepositoryVariable
       /\ TemplateParam_Value p' = (manager' ++ "##" ++ fullname')%string
       /\ LoadByName manager' = inr rm
       /\ Application_RepositoriesManager app = Some rm
       /\ Application_RepositoryFullname app = fullname'.
Proof.
  unfold Apply. intros H Hin Hat.
  destruct (NamePattern_MatchString appName); simpl in H; [|discriminate H].
  destruct (templ_Apply projKey appName (parameters_of params)) as [app0 err0].
  destruct (the_paramsLoop projKey params app0 err0) as [e|[app1 err1]] eqn:EL;
    [discriminate H|].
  inversion H; subst; clear H.
  apply paramsLoop_inr in EL. destruct EL as [_ [_ [_ Hcase]]].
  destruct Hcase as [[Hnone _] | [-> [p' [m [f [rm [Hin' [[Hty Hcut] [Hl [Hm Hf]]]]]]]]]].
  - exfalso. exact (Hnone p manager fullname Hin Hat).
  - split; [reflexivity|]. exists p', m, f, rm. simpl.
    apply cut_Some in Hcut.
    split; [exact Hin'|]. split; [exact Hty|]. split; [exact Hcut|].
    split; [exact Hl|]. split; [exact Hm | exact Hf].
Qed.

(** X16. When no parameter attaches the application to a repository and
    the name is accepted, [Apply] returns the application of the
    template, renamed, together with the error of the template: a
    template that failed still gives an application that is not nil. *)
Theorem unattached_application_keeps_the_error (projKey : string)
    (params : list TemplateParam) (appName : string) :
  NamePattern_MatchString appName = true ->
  (forall p manager fullname, In p params -> ~ attaches p manager fullname) ->
  the_Apply projKey params appName
  = (Some {| Application_Name := appName;
             Application_ProjectKey := projKey;
             Application_RepositoriesManager :=
               Application_RepositoriesManager
                 (fst (templ_Apply projKey appName (parameters_of params)));
             Application_RepositoryFullname :=
               Application_RepositoryFullname
                 (fst (templ_Apply projKey appName (parameters_of params)));
             Application_Variable :=
               Application_Variable
                 (fst (templ_Apply projKey appName (parameters_of params))) |},
     snd (templ_Apply projKey appName (parameters_of params))).
Proof.
  intros Hname Hnone. unfold Apply. rewrite Hname. simpl.
  destruct (templ_Apply projKey appName (parameters_of params)) as [app0 err0]. simpl.
  assert (H : the_paramsLoop projKey params app0 err0 = inr (app0, err0)).
  { clear Hname. induction params as [|p rest IH]; simpl; [reflexivity|].
    assert (Hrest : the_paramsLoop projKey rest app0 err0 = inr (app0, err0)).
    { apply IH. intros p0 m f Hin. apply Hnone. right. exact Hin. }
    destruct (String.eqb (TemplateParam_Type p) RepositoryVariable) eqn:Et; [|exact Hrest].
    apply String.eqb_eq in Et.
    destruct (SplitN_cases (TemplateParam_Value p)) as [[manager [fullname Hs]] | Hs].
    - exfalso. apply (Hnone p manager fullname (or_introl eq_refl)).
      split; [exact Et | apply SplitN_two; exact Hs].
    - rewrite Hs. exact Hrest. }
  rewrite H. reflexivity.
Qed.

End ApplyFacts.

(** A template that fails after having built an application with one
    variable, named "repo"; repositories managers that all exist. *)
Module SampleTemplate.
Import templateextension.

Definition built : Application :=
  {| Application_Name := "from-template"; Application_ProjectKey := "";
     Application_RepositoriesManager := None; Application_RepositoryFullname := "";
     Application_Variable := [ {| Variable_Name := "repo"; Variable_Value := "" |} ] |}.

Definition failing_template (projKey appName : string) (parameters : list (string * string))
    : Application * option string :=
  (built, Some "the template failed").

Definition accepts (name : string) : bool := negb (String.eqb name "").

Definition any_manager (name : string) : string + RepositoriesManager :=
  inr {| RepositoriesManager_Name := name |}.

Definition client_of (projKey manager : string) : string + string := inr manager.

Definition clone_url (client fullname : string) : string + string :=
  inr ("ssh://" ++ client ++ "/" ++ fullname)%string.

Definition Apply (projKey : string) (params : list TemplateParam) (appName : string)
    : option Application * option string :=
  templateextension.Apply string "invalid application name" "repository" accepts
    failing_template any_manager string client_of clone_url projKey params appName.

Definition repo_param : TemplateParam :=
  {| TemplateParam_Name := "repo"; TemplateParam_Type := "repository";
     TemplateParam_Value := "github##ovh/cds" |}.

Definition text_param : TemplateParam :=
  {| TemplateParam_Name := "branch"; TemplateParam_Type := "string";
     TemplateParam_Value := "master" |}.

End SampleTemplate.

Definition attached_app : templateextension.Application :=
  {| templateextension.Application_Name := "app";
     templateextension.Application_ProjectKey := "KEY";
     templateextension.Application_RepositoriesManager :=
       Some {| templateextension.RepositoriesManager_Name := "github" |};
     templateextension.Application_RepositoryFullname := "ovh/cds";
     templateextension.Application_Variable :=
       [ {| templateextension.Variable_Name := "repo";
            templateextension.Variable_Value := "ssh://github/ovh/cds" |} ] |}.

Lemma attached_application_has_no_error_witness :
  exists err,
    SampleTemplate.Apply "KEY" [SampleTemplate.repo_param] "app" = (Some attached_app, err)
    /\ snd (SampleTemplate.failing_template "KEY" "app" []) = Some "the template failed"
    /\ err = None.
Proof.
  assert (H : SampleTemplate.Apply "KEY" [SampleTemplate.repo_param] "app"
              = (Some attached_app, None)) by (vm_compute; reflexivity).
  exists None. split; [exact H|]. split; [reflexivity|].
  exact (proj1 (attached_application_has_no_error string
                  "invalid application name" "repository" SampleTemplate.accepts
                  SampleTemplate.failing_template SampleTemplate.any_manager
                  string SampleTemplate.client_of SampleTemplate.clone_url
                  "KEY" [SampleTemplate.repo_param] "app" attached_app None
                  SampleTemplate.repo_param "github" "ovh/cds"
                  H (or_introl eq_refl) (conj eq_refl eq_refl))).
Defined.

Lemma unattached_application_keeps_the_error_witness :
  SampleTemplate.accepts "app" = true
  /\ SampleTemplate.Apply "KEY" [SampleTemplate.text_param] "app"
     = (Some {| templateextension.Application_Name := "app";
                templateextension.Application_ProjectKey := "KEY";
                templateextension.Application_RepositoriesManager := None;
                templateextension.Application_RepositoryFullname := "";
                templateextension.Application_Variable :=
                  [ {| templateextension.Variable_Name := "repo";
                       templateextension.Variable_Value := "" |} ] |},
        Some "the template failed").
Proof.
  split; [reflexivity|].
  assert (Hnone : forall p manager fullname,
            In p [SampleTemplate.text_param] ->
            ~ attaches "repository" p manager fullname).
  { intros p m f [<-|[]] [Hty _]. discriminate Hty. }
  exact (unattached_application_keeps_the_error string
           "invalid application name" "repository" SampleTemplate.accepts
           SampleTemplate.failing_template SampleTemplate.any_manager
           string SampleTemplate.client_of SampleTemplate.clone_url
           "KEY" [SampleTemplate.text_param] "app" eq_refl Hnone).
Defined.

(* ===================================================================== *)
(** ** The map of the parameters, and LoadByType *)
(* ===================================================================== *)

Lemma map_get_set_same (name value : string) (m : list (string * string)) :
  templateextension.map_get name (templateextension.map_set name value m) = Some value.
Proof.
  induction m as [|[k v] rest IH]; simpl.
  - rewrite String.eqb_refl. reflexivity.
  - destruct (String.eqb k name) eqn:E; simpl; rewrite E; [reflexivity | exact IH].
Qed.

Lemma map_get_set_other (name name' value : string) (m : list (string * string)) :
  name <> name' ->
  templateextension.map_get name (templateextension.map_set name' value m)
  = templateextension.map_get name m.
Proof.
  intro Hne. induction m as [|[k v] rest IH]; simpl.
  - destruct (String.eqb name' name) eqn:E; [|reflexivity].
    apply String.eqb_eq in E. congruence.
  - destruct (String.eqb k name') eqn:E; simpl.
    + apply String.eqb_eq in E. subst k.
      destruct (String.eqb name' name) eqn:E'; [|reflexivity].
      apply String.eqb_eq in E'. congruence.
    + destruct (String.eqb k name); [reflexivity | exact IH].
Qed.

Lemma find_snoc (A : Type) (f : A -> bool) (l : list A) (x : A) :
  find f (l ++ [x]) = match find f l with
                      | Some y => Some y
                      | None => if f x then Some x else None
                      end.
Proof.
  induction l as [|y rest IH]; simpl; [reflexivity|].
  destruct (f y); [reflexivity | exact IH].
Qed.

(** X17. The map that [Apply] gives to the template holds, under each
    name, the value of the last parameter of that name: when a name is
    given twice, the later value replaces the earlier one; a name that no
    parameter has is not in the map. *)
Theorem last_parameter_wins (params : list templateextension.TemplateParam) (name : string) :
  templateextension.map_get name (templateextension.parameters_of params)
  = option_map templateextension.TemplateParam_Value
      (find (fun p => String.eqb (templateextension.TemplateParam_Name p) name)
         (rev params)).
Proof.
  unfold templateextension.parameters_of.
  assert (Hgen : forall m,
            templateextension.map_get name
              (fold_left (fun m p =>
                            templateextension.map_set
                              (templateextension.TemplateParam_Name p)
                              (templateextension.TemplateParam_Value p) m) params m)
            = match find (fun p => String.eqb (templateextension.TemplateParam_Name p) name)
                      (rev params) with
              | Some p => Some (templateextension.TemplateParam_Value p)
              | None => templateextension.map_get name m
              end).
  { induction params as [|p rest IH]; intro m; simpl; [reflexivity|].
    rewrite IH, find_snoc.
    destruct (find (fun p0 => String.eqb (templateextension.TemplateParam_Name p0) name)
                (rev rest)); [reflexivity|].
    simpl. destruct (String.eqb (templateextension.TemplateParam_Name p) name) eqn:E.
    - apply String.eqb_eq in E. subst name. apply map_get_set_same.
    - apply String.eqb_neq in E. apply map_get_set_other. congruence. }
  rewrite Hgen.
  destruct (find (fun p => String.eqb (templateextension.TemplateParam_Name p) name)
              (rev params)); reflexivity.
Qed.

Section LoadByTypeFacts.
Import templateextension.
Variable E : Type.
Variable select_by_type : string -> E + list TemplateExtension.
Variable select_params : Z -> E + string.
Variable unmarshal_params : string -> E + list TemplateParam.

(** The template that [LoadByType] makes of a row of the database. *)
Definition template_of_row (t : TemplateExtension) (tmpl : Template) : Prop :=
  Template_ID tmpl = TemplateExtension_ID t
  /\ Template_Name tmpl = TemplateExtension_Name t
  /\ Template_Description tmpl = TemplateExtension_Description t
  /\ exists str, select_params (TemplateExtension_ID t) = inr str
                 /\ unmarshal_params str = inr (Template_Params tmpl).

Lemma templatesLoop_inr (rows : list TemplateExtension) :
  forall tpl tpl',
    templatesLoop E select_params unmarshal_params rows tpl = inr tpl' ->
    exists rest, tpl' = (tpl ++ rest)%list /\ Forall2 template_of_row rows rest.
Proof.
  induction rows as [|t rows' IH]; intros tpl tpl' H; simpl in H.
  - inversion H; subst. exists []. rewrite app_nil_r. split; constructor.
  - destruct (select_params (TemplateExtension_ID t)) as [e|str] eqn:Es; [discriminate H|].
    destruct (unmarshal_params str) as [e|params] eqn:Eu; [discriminate H|].
    apply IH in H. destruct H as [rest [-> HF]].
    eexists. split; [rewrite <- app_assoc; reflexivity|].
    constructor; [|exact HF].
    split; [reflexivity|]. split; [reflexivity|]. split; [reflexivity|].
    exists str. simpl. split; assumption.
Qed.

(** X18. A list that [LoadByType] returns begins with the empty template
    "Void", of id 10000, and goes on with one template for each row that
    the query returned, in the order of the query, with the id, the name
    and the description of the row and the parameters decoded for that
    id; it has one template more than the query has rows. *)
Theorem LoadByType_begins_with_Void (t : string) (tpl : list Template) :
  LoadByType E select_by_type select_params unmarshal_params t = inr tpl ->
  exists rows rest,
    select_by_type t = inr rows
    /\ tpl = EmptyTemplate :: rest
    /\ Forall2 template_of_row rows rest
    /\ List.length tpl = S (List.length rows).
Proof.
  unfold LoadByType. intro H.
  destruct (select_by_type t) as [e|rows]; [discriminate H|].
  apply templatesLoop_inr in H. destruct H as [rest [-> HF]].
  exists rows, rest. split; [reflexivity|]. split; [reflexivity|]. split; [exact HF|].
  simpl. rewrite (Forall2_length HF). reflexivity.
Qed.

End LoadByTypeFacts.

Lemma LoadByType_begins_with_Void_witness :
  exists tpl,
    templateextension.LoadByType string
      (fun t => inr [ {| templateextension.TemplateExtension_ID := 7;
                         templateextension.TemplateExtension_Name := "go";
                         templateextension.TemplateExtension_Type := t;
                         templateextension.TemplateExtension_Description := "Go build" |} ])
      (fun id => inr "[]") (fun str => inr []) "BUILD"
    = inr tpl
    /\ List.map templateextension.Template_ID tpl = [10000; 7]
    /\ List.length tpl = 2%nat.
Proof.
  eexists. split; [reflexivity|]. split; [reflexivity|].
  destruct (LoadByType_begins_with_Void string
              (fun t => inr [ {| templateextension.TemplateExtension_ID := 7;
                                 templateextension.TemplateExtension_Name := "go";
                                 templateextension.TemplateExtension_Type := t;
                                 templateextension.TemplateExtension_Description :=
                                   "Go build" |} ])
              (fun id => inr "[]") (fun str => inr []) "BUILD" _ eq_refl)
    as [rows [rest [Hrows [_ [_ Hlen]]]]].
  inversion Hrows; subst rows. exact Hlen.
Defined.

(* ===================================================================== *)
(** ** Parameters of a job that do not decode *)
(* ===================================================================== *)

(** X20. The function returns from inside the loop over the jobs exactly
    when an entry is an object whose "start" and "done" are strings and
    whose "args" do not decode to parameters: the error of the decoding is
    returned, with no build, after the two readings of the clock and a
    log at the critical severity; the "id", the "status" and the other
    fields of the entry are not looked at. *)
Theorem job_parameters_error_is_returned (env : Env) (pbID : Z) (b : json) (w w' : world)
    (res : result) :
  buildJob env pbID b w = (Normal (Return res), w')
  <-> exists m startTimeS doneTimeS errParam,
        b = JObject m
        /\ lookup "start" m = Some (JString startTimeS)
        /\ lookup "done" m = Some (JString doneTimeS)
        /\ Unmarshal.parameters (lookup "args" m) = inl errParam
        /\ res = nils (Some errParam)
        /\ w' = log Critical "MigratePipelineHistory>  Cannot unmarshall parameters: %s" 0
                  (tick (tick w)).
Proof.
  split.
  - unfold buildJob. unfold_M. intro H.
    destruct (assert_map b) as [m|] eqn:Em; try discriminate H.
    apply assert_map_Normal in Em. simpl in H.
    destruct (assert_string (lookup "start" m)) as [startTimeS|] eqn:Es; try discriminate H.
    simpl in H.
    destruct (assert_string (lookup "done" m)) as [doneTimeS|] eqn:Ed; try discriminate H.
    simpl in H.
    apply assert_string_Normal in Es, Ed.
    destruct (Unmarshal.parameters (lookup "args" m)) as [err|ps] eqn:Ep.
    + simpl in H. inversion H; subst.
      exists m, startTimeS, doneTimeS, err.
      split; [reflexivity|]. split; [exact Es|]. split; [exact Ed|].
      split; [exact Ep|]. split; reflexivity.
    + destruct (assert_float64 (lookup "id" m)); try discriminate H. simpl in H.
      destruct (assert_string (lookup "status" m)); try discriminate H. simpl in H.
      destruct (assert_string (lookup "action_name" m)); try discriminate H. simpl in H.
      destruct (assert_float64 (lookup "pipeline_action_id" m)); discriminate H.
  - intros [m [startTimeS [doneTimeS [errParam [-> [Hs [Hd [Hp [-> ->]]]]]]]]].
    unfold buildJob. unfold_M. simpl. rewrite Hs, Hd. simpl. rewrite Hp. reflexivity.
Qed.
